(** * AMKO: global filter, object metadata, member stores and the retry layer

    A shallow embedding of the Go packages [gslbutils] (global filter),
    [k8sobjects] (ingress-host and route metadata), [ingestion] (member
    cluster stores) and [retry], with the properties of the design
    document proved, or refuted, against it.

    Conventions.
    - A Go [uint32] is a [Z] kept in [0, 2^32) with the wrap-around of
      [+=] written out ([add32]). An [int32] is a [Z] obtained by
      [int32].
    - A Go [map[string]T] is a [gmap string T]; its iteration order is
      the order of [map_to_list].
    - A pointer that may be [nil] is an [option].
    - Process-wide singletons (the global filter, the host maps) are
      passed and returned explicitly.
    - Locks and log lines have no functional content and are left out. *)

From Stdlib Require Import ZArith List String Ascii Permutation Lia.
From stdpp Require Import gmap strings list fin_maps pretty sorting.

Local Open Scope Z_scope.
Local Open Scope string_scope.
Local Open Scope list_scope.

(** ** Machine integers *)

Definition u32 (z : Z) : Z := z mod 2 ^ 32.

(** [a += b] on [uint32]. *)
Definition add32 (a b : Z) : Z := u32 (a + b).

(** The conversion [int32(w)] of a [uint32] value. *)
Definition int32 (w : Z) : Z := (w + 2 ^ 31) mod 2 ^ 32 - 2 ^ 31.

(** [strconv.Itoa]: the decimal rendering of an integer. *)
Definition Itoa (z : Z) : string := pretty z.

(** [utils.Hash] belongs to an external library: the development is
    parametric in it. Closed examples need some hash; they use the 32-bit
    FNV-1a function below. *)
Definition fnv1a32 (s : string) : Z :=
  fold_left
    (fun h c => u32 (Z.lxor h (Z.of_N (N_of_ascii c)) * 16777619))
    (list_ascii_of_string s) 2166136261.

(** ** Package gdpv1alpha1: the policy document *)
Module V1alpha1.

(** Modelled from the spec: the type declarations of the policy resource
    are not among the sources at hand. The policy document carries an
    application selector and a namespace selector (label maps), the list of
    applicable clusters and the traffic split, a list of (cluster, weight);
    the fields are named as the functions of [gslbutils] read them. *)
Record TrafficSplitElem := mkTrafficSplitElem {
  Cluster : string;
  Weight : Z (* uint32 *)
}.

Record MatchRules := mkMatchRules {
  AppSelector_Label : gmap string string;
  NamespaceSelector_Label : gmap string string
}.

Record GDPSpec := mkGDPSpec {
  MatchRulesOf : MatchRules;
  MatchClusters : list string;
  TrafficSplit : list TrafficSplitElem
}.

Record GlobalDeploymentPolicy := mkGDP {
  Name : string;
  Namespace : string;
  Spec : GDPSpec
}.

End V1alpha1.

(** ** Package gslbutils *)
Module Gslbutils.
Import V1alpha1.

Module Label.
Record t := mk { Key : string; Value : string }.
End Label.

Module AppFilter.
Record t := mk { Label : Label.t }.
Definition Key (a : t) : string := Label.Key (Label a).
Definition Value (a : t) : string := Label.Value (Label a).
End AppFilter.

Module NamespaceFilter.
Record t := mk {
  Label : Label.t;
  (* a nil map is [None] *)
  SelectedNS : option (gmap string (list string));
  Checksum : Z (* uint32 *)
}.
End NamespaceFilter.

Module ClusterTraffic.
Record t := mk { ClusterName : string; Weight : Z (* int32 *) }.
End ClusterTraffic.

Module GlobalFilter.
Record t := mk {
  AppFilter : option AppFilter.t;
  NSFilter : option NamespaceFilter.t;
  TrafficSplit : list ClusterTraffic.t;
  ApplicableClusters : list string;
  Checksum : Z (* uint32 *)
}.
End GlobalFilter.

Fixpoint PresentInList (key : string) (strList : list string) : bool :=
  match strList with
  | [] => false
  | str :: rest => if String.eqb str key then true else PresentInList key rest
  end.

Definition GetChecksum (nsFilter : NamespaceFilter.t) : Z :=
  NamespaceFilter.Checksum nsFilter.

Definition GetFilterLabel (nsFilter : NamespaceFilter.t) : Label.t :=
  NamespaceFilter.Label nsFilter.

(** [AddNS]: writing into the nil map panics ([None]). *)
Definition AddNS (nsFilter : NamespaceFilter.t) (cname ns : string)
  : option NamespaceFilter.t :=
  match NamespaceFilter.SelectedNS nsFilter with
  | None => None
  | Some sel =>
      let put l :=
        NamespaceFilter.mk (NamespaceFilter.Label nsFilter)
          (Some (<[cname := l]> sel)) (NamespaceFilter.Checksum nsFilter) in
      match sel !! cname with
      | None => Some (put [ns])
      | Some nsList =>
          if negb (PresentInList ns nsList) then Some (put (nsList ++ [ns]))
          else Some nsFilter
      end
  end.

(** The first pair the iteration yields, or two empty strings. *)
Definition getLabelKeyAndValue (lbl : gmap string string) : string * string :=
  match map_to_list lbl with
  | (k, v) :: _ => (k, v)
  | [] => ("", "")
  end.

(** [GetNewGlobalFilter]: no selectors, empty lists, zero checksum. *)
Definition GetNewGlobalFilter : GlobalFilter.t :=
  GlobalFilter.mk None None [] [] 0.

Definition DeleteFromGlobalFilter (gf : GlobalFilter.t)
  (gdp : GlobalDeploymentPolicy) : GlobalFilter.t :=
  GlobalFilter.mk None None [] [] 0.

Fixpoint GetTrafficWeightLoop (ts : list ClusterTraffic.t) (cname : string)
  : Z * option string :=
  match ts with
  | [] => (0, Some ("no weight available for cluster " +:+ cname))
  | t :: rest =>
      if String.eqb (ClusterTraffic.ClusterName t) cname
      then (ClusterTraffic.Weight t, None)
      else GetTrafficWeightLoop rest cname
  end.

Definition GetTrafficWeight (gf : GlobalFilter.t) (ns cname : string)
  : Z * option string :=
  GetTrafficWeightLoop (GlobalFilter.TrafficSplit gf) cname.

Definition IsClusterAllowed (gf : GlobalFilter.t) (cname : string) : bool :=
  if PresentInList cname (GlobalFilter.ApplicableClusters gf) then true
  else false.

(** The inner loop of [isTrafficWeightChanged] over the new members, for
    one old member: the first component says that the function returned
    [true] from inside the loop, the second is [found] at its end. *)
Fixpoint scanNewMembers (oldMember : TrafficSplitElem)
  (newTS : list TrafficSplitElem) (found : bool) : bool * bool :=
  match newTS with
  | [] => (false, found)
  | newMember :: rest =>
      if String.eqb (Cluster oldMember) (Cluster newMember) then
        if negb (Z.eqb (Weight oldMember) (Weight newMember))
        then (true, true)
        else scanNewMembers oldMember rest true
      else scanNewMembers oldMember rest found
  end.

(** The outer loop over the old members. *)
Fixpoint scanOldMembers (oldTS newTS : list TrafficSplitElem) : bool :=
  match oldTS with
  | [] => false
  | oldMember :: rest =>
      let '(returned, found) := scanNewMembers oldMember newTS false in
      if returned then true
      else if Bool.eqb found false then true
      else scanOldMembers rest newTS
  end.

Definition isTrafficWeightChanged (new old : GlobalDeploymentPolicy) : bool :=
  if negb (Nat.eqb (length (TrafficSplit (Spec old)))
                   (length (TrafficSplit (Spec new))))
  then true
  else scanOldMembers (TrafficSplit (Spec old)) (TrafficSplit (Spec new)).

Section WithHash.
Variable Hash : string -> Z.

Definition createNewNSFilter (lbl : gmap string string) : NamespaceFilter.t :=
  let '(k, v) := getLabelKeyAndValue lbl in
  let cksum := Hash (k +:+ v) in
  NamespaceFilter.mk (Label.mk k v) None cksum.

Definition ComputeChecksum (gf : GlobalFilter.t) : GlobalFilter.t :=
  let cksum := 0 in
  let cksum :=
    match GlobalFilter.AppFilter gf with
    | Some af => add32 cksum (Hash (AppFilter.Key af +:+ AppFilter.Value af))
    | None => cksum
    end in
  let cksum :=
    match GlobalFilter.NSFilter gf with
    | Some nsf => add32 cksum (GetChecksum nsf)
    | None => cksum
    end in
  let cksum :=
    fold_left (fun acc c => add32 acc (Hash c))
      (GlobalFilter.ApplicableClusters gf) cksum in
  let cksum :=
    fold_left
      (fun acc ts =>
         add32 acc (Hash (ClusterTraffic.ClusterName ts +:+
                          Itoa (ClusterTraffic.Weight ts))))
      (GlobalFilter.TrafficSplit gf) cksum in
  GlobalFilter.mk (GlobalFilter.AppFilter gf) (GlobalFilter.NSFilter gf)
    (GlobalFilter.TrafficSplit gf) (GlobalFilter.ApplicableClusters gf) cksum.

(** The loop of [AddToFilter] that appends one [ClusterTraffic] per
    element of the policy's traffic split to the filter's list. *)
Definition appendTrafficSplit (cur : list ClusterTraffic.t)
  (ts : list TrafficSplitElem) : list ClusterTraffic.t :=
  fold_left
    (fun acc e => acc ++ [ClusterTraffic.mk (Cluster e) (int32 (Weight e))])
    ts cur.

Definition AddToFilter (gf : GlobalFilter.t) (gdp : GlobalDeploymentPolicy)
  : GlobalFilter.t :=
  let appLbl := AppSelector_Label (MatchRulesOf (Spec gdp)) in
  let nsLbl := NamespaceSelector_Label (MatchRulesOf (Spec gdp)) in
  let appFilter :=
    if Nat.eqb (size appLbl) 1 then
      let '(k, v) := getLabelKeyAndValue appLbl in
      Some (AppFilter.mk (Label.mk k v))
    else GlobalFilter.AppFilter gf in
  let nsFilter :=
    if Nat.eqb (size nsLbl) 1 then Some (createNewNSFilter nsLbl)
    else GlobalFilter.NSFilter gf in
  let applicableClusters := MatchClusters (Spec gdp) in
  let trafficSplit :=
    appendTrafficSplit (GlobalFilter.TrafficSplit gf)
      (TrafficSplit (Spec gdp)) in
  ComputeChecksum
    (GlobalFilter.mk appFilter nsFilter trafficSplit applicableClusters
       (GlobalFilter.Checksum gf)).

(** [UpdateGlobalFilter] returns the live filter after the call and the
    two booleans. *)
Definition UpdateGlobalFilter (gf : GlobalFilter.t)
  (oldGDP newGDP : GlobalDeploymentPolicy) : GlobalFilter.t * (bool * bool) :=
  let nf := GetNewGlobalFilter in
  let nf := AddToFilter nf newGDP in
  if Z.eqb (GlobalFilter.Checksum gf) (GlobalFilter.Checksum nf) then
    (gf, (false, false))
  else
    let gf' :=
      GlobalFilter.mk (GlobalFilter.AppFilter nf) (GlobalFilter.NSFilter nf)
        (GlobalFilter.TrafficSplit nf) (GlobalFilter.ApplicableClusters nf)
        (GlobalFilter.Checksum nf) in
    let trafficWeightChanged := isTrafficWeightChanged newGDP oldGDP in
    (gf', (true, trafficWeightChanged)).

(** [AddNSToNSFilter]: the error when no namespace filter is set; [None]
    when [AddNS] panics. *)
Definition AddNSToNSFilter (gf : GlobalFilter.t) (cname ns : string)
  : option (GlobalFilter.t * option string) :=
  match GlobalFilter.NSFilter gf with
  | None =>
      Some (gf, Some "NSFilter empty in GlobalFilter, can't add namespace")
  | Some nsf =>
      match AddNS nsf cname ns with
      | None => None
      | Some nsf' =>
          Some (GlobalFilter.mk (GlobalFilter.AppFilter gf) (Some nsf')
                  (GlobalFilter.TrafficSplit gf)
                  (GlobalFilter.ApplicableClusters gf)
                  (GlobalFilter.Checksum gf), None)
      end
  end.

End WithHash.

(** The pointer to the authoritative policy object, a process-wide
    variable, passed and returned explicitly. *)
Module GDPObj.
Record t := mk { Namespace : string; Name : string }.
End GDPObj.

Definition SetGDPObj (name ns : string) (gdpObj : GDPObj.t) : GDPObj.t :=
  GDPObj.mk ns name.

Definition GetGDPObj (gdpObj : GDPObj.t) : string * string :=
  (GDPObj.Name gdpObj, GDPObj.Namespace gdpObj).

Definition IsEmpty (gdpObj : GDPObj.t) : bool :=
  if String.eqb (GDPObj.Name gdpObj) ""
     && String.eqb (GDPObj.Namespace gdpObj) ""
  then true else false.

Definition GetNSFilterLabel (gf : GlobalFilter.t) : Label.t * option string :=
  match GlobalFilter.NSFilter gf with
  | None => (Label.mk "" "", Some "no NSFilter present")
  | Some nsFilter => (GetFilterLabel nsFilter, None)
  end.

Definition GetAppFilterLabel (gf : GlobalFilter.t) : Label.t * option string :=
  match GlobalFilter.AppFilter gf with
  | None => (Label.mk "" "", Some "no appFilter present")
  | Some appFilter => (AppFilter.Label appFilter, None)
  end.

(** The cluster object store is declared in a file of this package that is
    not among the sources at hand; the design document describes it. *)
Module ClusterStore.
Section WithObj.
Variable Obj : Type.

(** Modelled from the spec: [ClusterStore], a three-level index, cluster
    name to namespace to object name to metadata. *)
Record t := mk {
  ClusterObjectMap : gmap string (gmap string (gmap string Obj))
}.

(** Modelled from the spec: [AddOrUpdate], the upsert into the three-level
    map; an entry already there is overwritten. *)
Definition AddOrUpdate (clusterStore : t) (obj : Obj)
  (cname ns objName : string) : t :=
  let cmap := ClusterObjectMap clusterStore in
  let nsMap := default ∅ (cmap !! cname) in
  let objMap := default ∅ (nsMap !! ns) in
  mk (<[cname := <[ns := <[objName := obj]> objMap]> nsMap]> cmap).

(** Modelled from the spec: [DeleteClusterNSObj], which removes the entry
    if present and does nothing otherwise. *)
Definition DeleteClusterNSObj (clusterStore : t) (cname ns objName : string)
  : t :=
  let cmap := ClusterObjectMap clusterStore in
  match cmap !! cname with
  | None => clusterStore
  | Some nsMap =>
      match nsMap !! ns with
      | None => clusterStore
      | Some objMap =>
          match objMap !! objName with
          | None => clusterStore
          | Some _ =>
              mk (<[cname := <[ns := delete objName objMap]> nsMap]> cmap)
          end
      end
  end.

(** Modelled from the spec: the lookup of the entry under (cluster,
    namespace, object name), which the callers use to read the store. *)
Definition GetClusterNSObjectByName (clusterStore : t)
  (cname ns objName : string) : option Obj :=
  match ClusterObjectMap clusterStore !! cname with
  | None => None
  | Some nsMap =>
      match nsMap !! ns with
      | None => None
      | Some objMap => objMap !! objName
      end
  end.

End WithObj.
Arguments mk {Obj} _.
Arguments ClusterObjectMap {Obj} _.
Arguments AddOrUpdate {Obj} _ _ _ _ _.
Arguments DeleteClusterNSObj {Obj} _ _ _ _.
Arguments GetClusterNSObjectByName {Obj} _ _ _ _.
End ClusterStore.

End Gslbutils.

(** ** Package sort

    [sort.Strings] sorts a slice in place, in increasing byte-wise
    lexicographic order. Its result is the sorted permutation of its
    input, which a merge sort computes as well. *)
Definition string_le (a b : string) : Prop := String.leb a b = true.

#[global] Instance string_le_dec : RelDecision string_le :=
  fun a b => decide (String.leb a b = true).

Definition sortStrings (l : list string) : list string :=
  merge_sort string_le l.

(** ** Package networking/v1beta1: the fields of an ingress that are read *)
Module V1beta1.

Record HTTPIngressPath := mkHTTPIngressPath { Path : string }.

Record HTTPIngressRuleValue := mkHTTPIngressRuleValue {
  Paths : list HTTPIngressPath
}.

Record IngressRule := mkIngressRule {
  Host : string;
  HTTP : option HTTPIngressRuleValue (* nil when the rule has no HTTP block *)
}.

Record IngressTLS := mkIngressTLS { Hosts : list string }.

Record IngressSpec := mkIngressSpec {
  TLS : list IngressTLS;
  Rules : list IngressRule
}.

Record Ingress := mkIngress {
  Name : string;
  Namespace : string;
  Labels : gmap string string;
  Spec : IngressSpec
}.

End V1beta1.

(** ** Package route/v1: the fields of a route that are read *)
Module Routev1.

Record TLSConfig := mkTLSConfig { Termination : string }.

Record RouteSpec := mkRouteSpec {
  Host : string;
  Path : string;
  TLS : option TLSConfig (* nil when the route has no TLS block *)
}.

Record Route := mkRoute {
  Name : string;
  Namespace : string;
  Labels : gmap string string;
  Spec : RouteSpec
}.

End Routev1.

(** ** Package k8sobjects *)
Module K8sobjects.
Import Gslbutils.

(** Modelled from the spec: the entry of a host map, {IP, Hostname}; its
    declaration is not among the sources at hand. *)
Module IPHostname.
Record t := mk { IP : string; Hostname : string }.
End IPHostname.

(** Modelled from the spec: one IP-bearing virtual host of an ingress, as
    [gslbutils.IngressGetIPAddrs] lists them; its declaration is not among
    the sources at hand. *)
Module IngressHostIP.
Record t := mk { Hostname : string; IPAddr : string }.
End IngressHostIP.

(** The host map of an object kind as [getIngHostMap] and [getRouteHostMap]
    initialise it, once: [make(map[string]IPHostname)]. *)
Definition newHostMap : gmap string IPHostname.t := ∅.

(** The body of the inner loop of [getPathsForHost]. *)
Fixpoint addRulePaths (paths : list V1beta1.HTTPIngressPath)
  (pathList : list string) : list string :=
  match paths with
  | [] => pathList
  | path :: rest =>
      let pathKey :=
        if negb (String.eqb (V1beta1.Path path) "") then V1beta1.Path path
        else "/" in
      if PresentInList pathKey pathList then addRulePaths rest pathList
      else addRulePaths rest (pathList ++ [pathKey])
  end.

(** The loop of [getPathsForHost] over the rules, with its [continue] and
    its [break]. *)
Fixpoint scanRules (host : string) (rules : list V1beta1.IngressRule)
  (pathList : list string) : list string :=
  match rules with
  | [] => pathList
  | rule :: rest =>
      if negb (String.eqb (V1beta1.Host rule) host) then
        scanRules host rest pathList
      else
        let pathList :=
          match V1beta1.HTTP rule with
          | Some http => addRulePaths (V1beta1.Paths http) pathList
          | None => pathList
          end in
        if String.eqb (V1beta1.Host rule) host then pathList
        else scanRules host rest pathList
  end.

Definition getPathsForHost (host : string) (ingress : V1beta1.Ingress)
  : list string :=
  let pathList := scanRules host (V1beta1.Rules (V1beta1.Spec ingress)) [] in
  if Nat.eqb (length pathList) 0 then pathList ++ ["/"] else pathList.

Fixpoint addTLSHosts (hosts : list string) (tlsHosts : list string)
  : list string :=
  match hosts with
  | [] => tlsHosts
  | host :: rest =>
      if PresentInList host tlsHosts then addTLSHosts rest tlsHosts
      else addTLSHosts rest (tlsHosts ++ [host])
  end.

Definition getTLSHosts (ingress : V1beta1.Ingress) : list string :=
  fold_left (fun tlsHosts hosts => addTLSHosts (V1beta1.Hosts hosts) tlsHosts)
    (V1beta1.TLS (V1beta1.Spec ingress)) [].

(** The loop that copies a label map entry by entry. *)
Definition copyLabels (lbls : gmap string string) : gmap string string :=
  fold_left (fun acc kv => <[fst kv := snd kv]> acc) (map_to_list lbls) ∅.

Definition applyAppFilter (ihmLabels : gmap string string)
  (appFilter : AppFilter.t) : bool :=
  existsb
    (fun kv => String.eqb (fst kv) (AppFilter.Key appFilter)
               && String.eqb (snd kv) (AppFilter.Value appFilter))
    (map_to_list ihmLabels).

Module IngressHostMeta.

Record t := mk {
  Cluster : string;
  IngName : string;
  ObjName : string;
  Namespace : string;
  Hostname : string;
  IPAddr : string;
  Labels : gmap string string;
  Paths : list string;
  TLS : bool
}.

Definition GetName (ing : t) : string := ObjName ing.
Definition GetNamespace (ing : t) : string := Namespace ing.
Definition GetIngressHostMetaKey (ing : t) : string :=
  IngName ing +:+ "/" +:+ Hostname ing.
Definition GetClusterKey (ing : t) : string :=
  Cluster ing +:+ "/" +:+ Namespace ing +:+ "/" +:+ GetIngressHostMetaKey ing.
Definition GetCluster (ing : t) : string := Cluster ing.
Definition GetHostname (ing : t) : string := Hostname ing.
Definition GetIPAddr (ing : t) : string := IPAddr ing.

Definition GetPort (ing : t) : Z * option string :=
  (0, Some "ingress object doesn't support GetPort function").

Definition GetProtocol (ing : t) : string * option string :=
  ("", Some "ingress object doesn't support GetProtocol function").

Definition GetPaths (ing : t) : list string * option string :=
  if Nat.eqb (length (Paths ing)) 0
  then ([], Some ("no paths for this ingress " +:+ ObjName ing))
  else (Paths ing, None).

Definition GetTLS (ing : t) : bool * option string := (TLS ing, None).

Definition IsPassthrough (ing : t) : bool := false.

(** The ingress host map, once initialised, is threaded through. *)
Definition UpdateHostMap (ing : t) (key : string)
  (hostMap : gmap string IPHostname.t) : gmap string IPHostname.t :=
  <[key := IPHostname.mk (IPAddr ing) (Hostname ing)]> hostMap.

Definition GetHostnameFromHostMap (ing : t) (key : string)
  (hostMap : gmap string IPHostname.t) : string :=
  match hostMap !! key with
  | None => ""
  | Some ipHostname => IPHostname.Hostname ipHostname
  end.

Definition DeleteMapByKey (ing : t) (key : string)
  (hostMap : gmap string IPHostname.t) : gmap string IPHostname.t :=
  delete key hostMap.

(** [ApplyFilter] reads the global filter [gf]. *)
Definition ApplyFilter (ihm : t) (gf : GlobalFilter.t) : bool :=
  if negb (PresentInList (Cluster ihm) (GlobalFilter.ApplicableClusters gf)) then
    false
  else
    match GlobalFilter.NSFilter gf with
    | Some nsFilter =>
        (* nsList, ok := gf.NSFilter.SelectedNS[cluster] *)
        match
          match NamespaceFilter.SelectedNS nsFilter with
          | Some selectedNS => selectedNS !! Cluster ihm
          | None => None
          end
        with
        | None => false
        | Some nsList =>
            if PresentInList (Namespace ihm) nsList then
              match GlobalFilter.AppFilter gf with
              | None => true
              | Some appFilter =>
                  if applyAppFilter (Labels ihm) appFilter then true else false
              end
            else false
        end
    | None =>
        match GlobalFilter.AppFilter gf with
        | None => false
        | Some appFilter =>
            if negb (applyAppFilter (Labels ihm) appFilter) then false
            else true
        end
    end.

(** The zero value of the type: what [var ihm IngressHostMeta] holds. *)
Definition zero : t := mk "" "" "" "" "" "" ∅ [] false.

(** The loop of [IngressHostInList]; [ihm] is the variable declared before
    the loop, which the [range] clause assigns at each iteration. *)
Fixpoint IngressHostInListLoop (ing : t) (ihmList : list t) (ihm : t)
  : t * bool :=
  match ihmList with
  | [] => (ihm, false)
  | next :: rest =>
      let ihm := next in
      if String.eqb (Hostname ing) (Hostname ihm) then (ihm, true)
      else IngressHostInListLoop ing rest ihm
  end.

Definition IngressHostInList (ing : t) (ihmList : list t) : t * bool :=
  IngressHostInListLoop ing ihmList zero.

Section WithHash.
(** [utils.Hash] and [utils.Stringify] belong to an external library. *)
Variable Hash : string -> Z.
Variable Stringify : list string -> string.

(** The loop of [GetIngressHostCksum] over the labels, in the order
    [entries] of the iteration. *)
Definition labelsCksum (entries : list (string * string)) (cksum : Z) : Z :=
  fold_left
    (fun cksum kv => add32 cksum (add32 (Hash (fst kv)) (Hash (snd kv))))
    entries cksum.

(** [GetIngressHostCksum] sorts [ing.Paths] in place: the slice shares its
    array with the caller's. The result is the checksum and the content of
    that array after the call. *)
Definition GetIngressHostCksum (ing : t) : Z * list string :=
  let cksum := 0 in
  let cksum := labelsCksum (map_to_list (Labels ing)) cksum in
  let paths := sortStrings (Paths ing) in
  let cksum :=
    add32 cksum
      (add32 (add32 (add32 (add32 (add32 (Hash (Cluster ing))
                                         (Hash (Namespace ing)))
                                  (Hash (IngName ing)))
                           (Hash (Hostname ing)))
                    (Hash (IPAddr ing)))
             (Hash (Stringify paths))) in
  (cksum, paths).

End WithHash.

End IngressHostMeta.

Section WithIngressGetIPAddrs.
(** [gslbutils.IngressGetIPAddrs] is not among the sources at hand. *)
Variable IngressGetIPAddrs : V1beta1.Ingress -> list IngressHostIP.t.

Definition GetIngressHostMeta (ingress : V1beta1.Ingress) (cname : string)
  : list IngressHostMeta.t :=
  let hostIPList := IngressGetIPAddrs ingress in
  let tlsHosts := getTLSHosts ingress in
  fold_left
    (fun ingHostMetaList hip =>
       let hostname := IngressHostIP.Hostname hip in
       let metaObj :=
         IngressHostMeta.mk cname (V1beta1.Name ingress)
           (V1beta1.Name ingress +:+ "/" +:+ hostname)
           (V1beta1.Namespace ingress) hostname (IngressHostIP.IPAddr hip)
           (copyLabels (V1beta1.Labels ingress))
           (getPathsForHost hostname ingress)
           (if PresentInList hostname tlsHosts then true else false) in
       ingHostMetaList ++ [metaObj])
    hostIPList [].

End WithIngressGetIPAddrs.

Module RouteMeta.

Record t := mk {
  Cluster : string;
  Name : string;
  Namespace : string;
  Hostname : string;
  IPAddr : string;
  Labels : gmap string string;
  Paths : list string;
  TLS : bool;
  Port : Z (* int32 *);
  Protocol : string;
  Passthrough : bool
}.

Definition GetName (route : t) : string := Name route.
Definition GetNamespace (route : t) : string := Namespace route.
Definition GetHostname (route : t) : string := Hostname route.
Definition GetIPAddr (route : t) : string := IPAddr route.
Definition GetCluster (route : t) : string := Cluster route.

Definition GetPort (route : t) : Z * option string :=
  if Passthrough route then (Port route, None)
  else (0, Some "route object doesn't support GetPort function").

Definition GetProtocol (route : t) : string * option string :=
  if Passthrough route then (Protocol route, None)
  else ("", Some "route object doesn't support GetProtocol support").

Definition GetPaths (route : t) : list string * option string :=
  if Nat.eqb (length (Paths route)) 0
  then (Paths route, Some ("path list is empty for route " +:+ Name route))
  else (Paths route, None).

Definition GetTLS (route : t) : bool * option string := (TLS route, None).

Definition IsPassthrough (route : t) : bool := Passthrough route.

Definition UpdateHostMap (route : t) (key : string)
  (hostMap : gmap string IPHostname.t) : gmap string IPHostname.t :=
  <[key := IPHostname.mk (IPAddr route) (Hostname route)]> hostMap.

Definition GetHostnameFromHostMap (route : t) (key : string)
  (hostMap : gmap string IPHostname.t) : string :=
  match hostMap !! key with
  | None => ""
  | Some ipHostname => IPHostname.Hostname ipHostname
  end.

Definition DeleteMapByKey (route : t) (key : string)
  (hostMap : gmap string IPHostname.t) : gmap string IPHostname.t :=
  delete key hostMap.

Definition ApplyFilter (route : t) (gf : GlobalFilter.t) : bool :=
  if negb (PresentInList (Cluster route) (GlobalFilter.ApplicableClusters gf)) then
    false
  else
    match GlobalFilter.NSFilter gf with
    | Some nsFilter =>
        (* nsList, ok := gf.NSFilter.SelectedNS[cluster] *)
        match
          match NamespaceFilter.SelectedNS nsFilter with
          | Some selectedNS => selectedNS !! Cluster route
          | None => None
          end
        with
        | None => false
        | Some nsList =>
            if PresentInList (Namespace route) nsList then
              match GlobalFilter.AppFilter gf with
              | None => true
              | Some appFilter =>
                  if applyAppFilter (Labels route) appFilter then true else false
              end
            else false
        end
    | None =>
        match GlobalFilter.AppFilter gf with
        | None => false
        | Some appFilter =>
            if negb (applyAppFilter (Labels route) appFilter) then false
            else true
        end
    end.

End RouteMeta.

Section WithRouteHelpers.
(** [gslbutils.RouteGetIPAddr] and three constants of [gslbutils] are not
    among the sources at hand. *)
Variable RouteGetIPAddr : Routev1.Route -> string * bool.
Variable PassthroughRoute : string.
Variable DefaultHTTPSHealthMonitorPort : Z.
Variable ProtocolTCP : string.

Definition GetRouteMeta (route : Routev1.Route) (cname : string)
  : RouteMeta.t :=
  let '(ipAddr, _) := RouteGetIPAddr route in
  let labels := copyLabels (Routev1.Labels route) in
  let metaObj tls port protocol passthrough paths :=
    RouteMeta.mk cname (Routev1.Name route) (Routev1.Namespace route)
      (Routev1.Host (Routev1.Spec route)) ipAddr labels paths tls
      port protocol passthrough in
  let pathList :=
    if negb (String.eqb (Routev1.Path (Routev1.Spec route)) "")
    then [] ++ [Routev1.Path (Routev1.Spec route)]
    else [] ++ ["/"] in
  match Routev1.TLS (Routev1.Spec route) with
  | Some tls =>
      if String.eqb (Routev1.Termination tls) PassthroughRoute then
        metaObj false DefaultHTTPSHealthMonitorPort ProtocolTCP true []
      else metaObj true 0 "" false pathList
  | None => metaObj false 0 "" false pathList
  end.

End WithRouteHelpers.

(** The two object kinds of this package behind the one method set. *)
Inductive MetaObject :=
| IngressHostObj (ing : IngressHostMeta.t)
| RouteObj (route : RouteMeta.t).

Definition GetPort (o : MetaObject) : Z * option string :=
  match o with
  | IngressHostObj ing => IngressHostMeta.GetPort ing
  | RouteObj route => RouteMeta.GetPort route
  end.

Definition GetProtocol (o : MetaObject) : string * option string :=
  match o with
  | IngressHostObj ing => IngressHostMeta.GetProtocol ing
  | RouteObj route => RouteMeta.GetProtocol route
  end.

Definition IsPassthrough (o : MetaObject) : bool :=
  match o with
  | IngressHostObj ing => IngressHostMeta.IsPassthrough ing
  | RouteObj route => RouteMeta.IsPassthrough route
  end.

Definition ApplyFilter (o : MetaObject) (gf : GlobalFilter.t) : bool :=
  match o with
  | IngressHostObj ing => IngressHostMeta.ApplyFilter ing gf
  | RouteObj route => RouteMeta.ApplyFilter route gf
  end.

Definition GetCluster (o : MetaObject) : string :=
  match o with
  | IngressHostObj ing => IngressHostMeta.GetCluster ing
  | RouteObj route => RouteMeta.GetCluster route
  end.

End K8sobjects.

(** ** Package ingestion: the member cluster stores *)
Module Ingestion.
Import Gslbutils K8sobjects.

(** The store pointer is dereferenced without a check: the function is
    given the store itself. *)
Definition AddOrUpdateIngressStore
  (clusterRouteStore : ClusterStore.t IngressHostMeta.t)
  (ingHost : IngressHostMeta.t) (cname : string)
  : ClusterStore.t IngressHostMeta.t :=
  ClusterStore.AddOrUpdate clusterRouteStore ingHost cname
    (IngressHostMeta.Namespace ingHost) (IngressHostMeta.ObjName ingHost).

(** The store pointer may be nil ([None]): nothing happens then. *)
Definition DeleteFromIngressStore
  (clusterIngStore : option (ClusterStore.t IngressHostMeta.t))
  (ingHost : IngressHostMeta.t) (cname : string)
  : option (ClusterStore.t IngressHostMeta.t) :=
  match clusterIngStore with
  | None => None
  | Some store =>
      Some (ClusterStore.DeleteClusterNSObj store
              (IngressHostMeta.ObjName ingHost)
              (IngressHostMeta.Namespace ingHost)
              (IngressHostMeta.Cluster ingHost))
  end.

Section WithRouteHelpers.
Variable RouteGetIPAddr : Routev1.Route -> string * bool.
Variable PassthroughRoute : string.
Variable DefaultHTTPSHealthMonitorPort : Z.
Variable ProtocolTCP : string.

Definition AddOrUpdateRouteStore
  (clusterRouteStore : ClusterStore.t RouteMeta.t)
  (route : Routev1.Route) (cname : string) : ClusterStore.t RouteMeta.t :=
  let routeMeta :=
    GetRouteMeta RouteGetIPAddr PassthroughRoute
      DefaultHTTPSHealthMonitorPort ProtocolTCP route cname in
  ClusterStore.AddOrUpdate clusterRouteStore routeMeta cname
    (Routev1.Namespace route) (Routev1.Name route).

End WithRouteHelpers.

Definition DeleteFromRouteStore
  (clusterRouteStore : option (ClusterStore.t RouteMeta.t))
  (route : Routev1.Route) (cname : string)
  : option (ClusterStore.t RouteMeta.t) :=
  match clusterRouteStore with
  | None => None
  | Some store =>
      let ns := Routev1.Namespace route in
      let routeName := Routev1.Name route in
      Some (ClusterStore.DeleteClusterNSObj store cname ns routeName)
  end.

End Ingestion.

(** ** Package retry *)
Module Retry.
Section WithQueues.
(** The shared work queues and the graph layer are external: [World] is
    their state, and publishing a key is any function on it, whatever
    became of the key. *)
Variables World Queue : Type.
Variable ExtractNamespaceObjectName : string -> string * string.
Variable GraphLayer : string.
Variable GetQueueByName : string -> World -> Queue.
Variable PublishKeyToRestLayer :
  string -> string -> string -> Queue -> World -> World.

(** The result is the returned [error] ([None] is nil) and the state of
    the queues after the call. *)
Definition SyncFromRetryLayer (key : string) (w : World)
  : option string * World :=
  let '(tenant, gsName) := ExtractNamespaceObjectName key in
  let sharedQueue := GetQueueByName GraphLayer w in
  let w := PublishKeyToRestLayer tenant gsName "retry" sharedQueue w in
  (None, w).

End WithQueues.
End Retry.

(** * Vocabulary of the properties *)

Import V1alpha1 Gslbutils.

(** The namespace filter carries its own checksum, which [ComputeChecksum]
    reads back. Every namespace filter the package builds has the hash of
    its label there: [createNewNSFilter] sets it and nothing else writes
    that field. *)
Definition NSFilter_wf (Hash : string -> Z) (nsf : NamespaceFilter.t) : Prop :=
  NamespaceFilter.Checksum nsf
  = Hash (Label.Key (NamespaceFilter.Label nsf) +:+
          Label.Value (NamespaceFilter.Label nsf)).

Definition GlobalFilter_wf (Hash : string -> Z) (gf : GlobalFilter.t) : Prop :=
  forall nsf, GlobalFilter.NSFilter gf = Some nsf -> NSFilter_wf Hash nsf.

(** The states of the global filter: the new filter, and what the
    operations of the package make of a state. *)
Inductive Reachable (Hash : string -> Z) : GlobalFilter.t -> Prop :=
| Reachable_new : Reachable Hash GetNewGlobalFilter
| Reachable_AddToFilter gf gdp :
    Reachable Hash gf -> Reachable Hash (AddToFilter Hash gf gdp)
| Reachable_UpdateGlobalFilter gf oldGDP newGDP :
    Reachable Hash gf ->
    Reachable Hash (fst (UpdateGlobalFilter Hash gf oldGDP newGDP))
| Reachable_DeleteFromGlobalFilter gf gdp :
    Reachable Hash gf -> Reachable Hash (DeleteFromGlobalFilter gf gdp)
| Reachable_AddNSToNSFilter gf gf' cname ns err :
    Reachable Hash gf -> AddNSToNSFilter gf cname ns = Some (gf', err) ->
    Reachable Hash gf'
| Reachable_ComputeChecksum gf :
    Reachable Hash gf -> Reachable Hash (ComputeChecksum Hash gf).

(** Two filter states with the same content, up to the order of the two
    lists. *)
Definition same_content (gf1 gf2 : GlobalFilter.t) : Prop :=
  AppFilter.Label <$> GlobalFilter.AppFilter gf1
    = AppFilter.Label <$> GlobalFilter.AppFilter gf2
  /\ NamespaceFilter.Label <$> GlobalFilter.NSFilter gf1
    = NamespaceFilter.Label <$> GlobalFilter.NSFilter gf2
  /\ GlobalFilter.ApplicableClusters gf1 ≡ₚ GlobalFilter.ApplicableClusters gf2
  /\ GlobalFilter.TrafficSplit gf1 ≡ₚ GlobalFilter.TrafficSplit gf2.


(** A traffic split lists no cluster with two different weights. *)
Definition one_weight_per_cluster (ts : list TrafficSplitElem) : Prop :=
  forall a b, a ∈ ts -> b ∈ ts -> Cluster a = Cluster b -> Weight a = Weight b.

(** Example states and documents. *)
Definition gf_c1_c2 : GlobalFilter.t :=
  GlobalFilter.mk
    (Some (AppFilter.mk (Label.mk "app" "gslb")))
    (Some (createNewNSFilter fnv1a32 {["ns" := "prod"]}))
    [ClusterTraffic.mk "c1" 8; ClusterTraffic.mk "c2" 2]
    ["c1"; "c2"] 0.

Definition gf_c2_c1 : GlobalFilter.t :=
  GlobalFilter.mk
    (Some (AppFilter.mk (Label.mk "app" "gslb")))
    (Some (createNewNSFilter fnv1a32 {["ns" := "prod"]}))
    [ClusterTraffic.mk "c2" 2; ClusterTraffic.mk "c1" 8]
    ["c2"; "c1"] 0.

Definition gdp_of (app ns : gmap string string) (clusters : list string)
  (ts : list TrafficSplitElem) : GlobalDeploymentPolicy :=
  mkGDP "gdp" "avi-system" (mkGDPSpec (mkMatchRules app ns) clusters ts).

Definition gdp_c1_c2 : GlobalDeploymentPolicy :=
  gdp_of {["app" := "gslb"]} ∅ ["c1"; "c2"]
    [mkTrafficSplitElem "c1" 8; mkTrafficSplitElem "c2" 2].

Definition gdp_c2_c1 : GlobalDeploymentPolicy :=
  gdp_of {["app" := "gslb"]} ∅ ["c2"; "c1"]
    [mkTrafficSplitElem "c2" 2; mkTrafficSplitElem "c1" 8].

Definition gdp_c1_only : GlobalDeploymentPolicy :=
  gdp_of {["app" := "gslb"]} ∅ ["c1"] [mkTrafficSplitElem "c1" 8].

(** The same cluster listed twice, with two weights, in two orders. *)
Definition gdp_dup_12 : GlobalDeploymentPolicy :=
  gdp_of ∅ ∅ ["c1"]
    [mkTrafficSplitElem "c1" 1; mkTrafficSplitElem "c1" 2].

Definition gdp_dup_21 : GlobalDeploymentPolicy :=
  gdp_of ∅ ∅ ["c1"]
    [mkTrafficSplitElem "c1" 2; mkTrafficSplitElem "c1" 1].

(** The [ClusterTraffic] that [AddToFilter] makes of one element of a
    policy's traffic split. *)
Definition toClusterTraffic (e : TrafficSplitElem) : ClusterTraffic.t :=
  ClusterTraffic.mk (Cluster e) (int32 (Weight e)).

(** The selector a label map stands for: its pair when it has exactly one,
    none otherwise. *)
Definition selectorOf (lbl : gmap string string) : option Label.t :=
  if Nat.eqb (size lbl) 1
  then Some (Label.mk (fst (getLabelKeyAndValue lbl))
                      (snd (getLabelKeyAndValue lbl)))
  else None.

(** Two policy documents that normalize to the same selectors, clusters
    and weights, the lists up to their order. *)
Definition same_policy (old new : GlobalDeploymentPolicy) : Prop :=
  selectorOf (AppSelector_Label (MatchRulesOf (Spec old)))
    = selectorOf (AppSelector_Label (MatchRulesOf (Spec new)))
  /\ selectorOf (NamespaceSelector_Label (MatchRulesOf (Spec old)))
     = selectorOf (NamespaceSelector_Label (MatchRulesOf (Spec new)))
  /\ MatchClusters (Spec old) ≡ₚ MatchClusters (Spec new)
  /\ TrafficSplit (Spec old) ≡ₚ TrafficSplit (Spec new).

(** A filter that already holds one traffic weight, and a policy with
    another. *)
Definition gf_holding_c1 : GlobalFilter.t :=
  GlobalFilter.mk None None [ClusterTraffic.mk "c1" 5] ["c1"] 0.

Definition gdp_c2_7 : GlobalDeploymentPolicy :=
  gdp_of ∅ ∅ ["c2"] [mkTrafficSplitElem "c2" 7].

Import K8sobjects.

(** The key under which a path of a rule is listed: the path, or "/" for
    the empty path. *)
Definition pathKeyOf (p : V1beta1.HTTPIngressPath) : string :=
  if String.eqb (V1beta1.Path p) "" then "/" else V1beta1.Path p.

Definition rulePathKeys (r : V1beta1.IngressRule) : list string :=
  match V1beta1.HTTP r with
  | Some http => pathKeyOf <$> V1beta1.Paths http
  | None => []
  end.

(** Deduplication that keeps the first occurrence of each element, hence
    the order of insertion. *)
Fixpoint nodup_first (l : list string) : list string :=
  match l with
  | [] => []
  | x :: rest => x :: filter (fun y => y <> x) (nodup_first rest)
  end.

Definition or_root (l : list string) : list string :=
  match l with [] => ["/"] | _ => l end.

(** The path list as the design document words it: the deduplicated union
    of the paths of all the rules of the host. *)
Definition paths_of_all_rules (host : string) (ingress : V1beta1.Ingress)
  : list string :=
  or_root
    (nodup_first
       (flat_map
          (fun r => if String.eqb (V1beta1.Host r) host then rulePathKeys r
                    else [])
          (V1beta1.Rules (V1beta1.Spec ingress)))).

(** The path list of the first rule of the host. *)
Definition paths_of_first_rule (host : string) (ingress : V1beta1.Ingress)
  : list string :=
  or_root
    (nodup_first
       (match
          find (fun r => String.eqb (V1beta1.Host r) host)
            (V1beta1.Rules (V1beta1.Spec ingress))
        with
        | Some r => rulePathKeys r
        | None => []
        end)).

(** The host is listed in some TLS block of the ingress. *)
Definition in_TLS_hosts (host : string) (ingress : V1beta1.Ingress) : Prop :=
  exists tls, tls ∈ V1beta1.TLS (V1beta1.Spec ingress)
              /\ host ∈ V1beta1.Hosts tls.

Definition rule_of (host : string) (paths : list string)
  : V1beta1.IngressRule :=
  V1beta1.mkIngressRule host
    (Some (V1beta1.mkHTTPIngressRuleValue (V1beta1.mkHTTPIngressPath <$> paths))).

(** An ingress with two hosts, [a.example] under TLS with the paths /x, /y
    and /x again, [b.example] without TLS and without an HTTP block. *)
Definition ing_two_hosts : V1beta1.Ingress :=
  V1beta1.mkIngress "web" "default" {["app" := "gslb"]}
    (V1beta1.mkIngressSpec
       [V1beta1.mkIngressTLS ["a.example"]]
       [rule_of "a.example" ["/x"; "/y"; "/x"];
        V1beta1.mkIngressRule "b.example" None]).

Definition ips_two_hosts (_ : V1beta1.Ingress) : list IngressHostIP.t :=
  [IngressHostIP.mk "a.example" "10.0.0.1";
   IngressHostIP.mk "b.example" "10.0.0.2"].

(** An ingress with two rules for the one host [a.example]. *)
Definition ing_two_rules : V1beta1.Ingress :=
  V1beta1.mkIngress "web" "default" ∅
    (V1beta1.mkIngressSpec []
       [rule_of "a.example" ["/x"]; rule_of "a.example" ["/y"]]).

Definition ips_one_host (_ : V1beta1.Ingress) : list IngressHostIP.t :=
  [IngressHostIP.mk "a.example" "10.0.0.1"].

(** The calls that write the ingress host map, and a run of them. *)
Inductive HostMapOp :=
| OpUpdateHostMap (ing : IngressHostMeta.t) (key : string)
| OpDeleteMapByKey (ing : IngressHostMeta.t) (key : string).

Definition runHostMapOp (hostMap : gmap string IPHostname.t) (op : HostMapOp)
  : gmap string IPHostname.t :=
  match op with
  | OpUpdateHostMap ing key => IngressHostMeta.UpdateHostMap ing key hostMap
  | OpDeleteMapByKey ing key => IngressHostMeta.DeleteMapByKey ing key hostMap
  end.

Definition runHostMapOps (ops : list HostMapOp)
  (hostMap : gmap string IPHostname.t) : gmap string IPHostname.t :=
  fold_left runHostMapOp ops hostMap.

Definition updates_key (key : string) (op : HostMapOp) : Prop :=
  match op with
  | OpUpdateHostMap _ k => k = key
  | OpDeleteMapByKey _ _ => False
  end.

(** Example objects. *)
Definition ihm_web : IngressHostMeta.t :=
  IngressHostMeta.mk "c1" "web" "web/a.example" "default" "a.example"
    "10.0.0.1" {["app" := "gslb"]} ["/"] false.

Definition route_plain : RouteMeta.t :=
  RouteMeta.mk "c1" "shop" "default" "shop.example" "10.0.0.3"
    {["app" := "gslb"]} ["/"] false 0 "" false.

Definition route_passthrough : RouteMeta.t :=
  RouteMeta.mk "c1" "shop" "default" "shop.example" "10.0.0.3"
    {["app" := "gslb"]} [] false 443 "TCP" true.

(** A filter that selects the namespace and the application of the example
    objects, on the cluster [c2] only; and the same with no cluster. *)
Definition gf_only_c2 : GlobalFilter.t :=
  GlobalFilter.mk
    (Some (AppFilter.mk (Label.mk "app" "gslb")))
    (Some (NamespaceFilter.mk (Label.mk "ns" "prod")
             (Some {["c1" := ["default"]; "c2" := ["default"]]})
             (fnv1a32 "nsprod")))
    [] ["c2"] 0.

Definition gf_no_cluster : GlobalFilter.t :=
  GlobalFilter.mk
    (Some (AppFilter.mk (Label.mk "app" "gslb")))
    (Some (NamespaceFilter.mk (Label.mk "ns" "prod")
             (Some {["c1" := ["default"]]}) (fnv1a32 "nsprod")))
    [] [] 0.

Definition route_shop : Routev1.Route :=
  Routev1.mkRoute "shop" "default" ∅
    (Routev1.mkRouteSpec "shop.example" "" None).

(** ** Vocabulary of the further properties *)

Definition objNamespace (o : MetaObject) : string :=
  match o with
  | IngressHostObj ing => IngressHostMeta.GetNamespace ing
  | RouteObj route => RouteMeta.GetNamespace route
  end.

Definition objLabels (o : MetaObject) : gmap string string :=
  match o with
  | IngressHostObj ing => IngressHostMeta.Labels ing
  | RouteObj route => RouteMeta.Labels route
  end.

(** The labels carry the pair of the application filter. *)
Definition matches_app (labels : gmap string string) (af : AppFilter.t)
  : Prop :=
  labels !! AppFilter.Key af = Some (AppFilter.Value af).

(** The namespace is listed for the cluster in the namespace filter. *)
Definition namespace_selected (nsf : NamespaceFilter.t)
  (cluster namespace : string) : Prop :=
  exists sel nsList,
    NamespaceFilter.SelectedNS nsf = Some sel
    /\ sel !! cluster = Some nsList /\ namespace ∈ nsList.

(** When the global filter lets an object of a cluster and a namespace,
    with some labels, in. *)
Definition selects (gf : GlobalFilter.t) (cluster namespace : string)
  (labels : gmap string string) : Prop :=
  cluster ∈ GlobalFilter.ApplicableClusters gf
  /\ match GlobalFilter.NSFilter gf with
     | Some nsf =>
         namespace_selected nsf cluster namespace
         /\ (forall af, GlobalFilter.AppFilter gf = Some af ->
                        matches_app labels af)
     | None =>
         exists af, GlobalFilter.AppFilter gf = Some af
                    /\ matches_app labels af
     end.

(** The namespaces listed for a cluster, none when the cluster has no
    entry. *)
Definition selected_of (sel : gmap string (list string)) (cname : string)
  : list string :=
  default [] (sel !! cname).

(** When [isTrafficWeightChanged] finds nothing changed for one member of
    the old traffic split. *)
Definition member_kept (newTS : list TrafficSplitElem) (om : TrafficSplitElem)
  : Prop :=
  Cluster om ∈ Cluster <$> newTS
  /\ forall nm, nm ∈ newTS -> Cluster nm = Cluster om ->
                Weight nm = Weight om.

(** Example: a filter with a namespace filter whose map is initialised. *)
Definition gf_ns_ready : GlobalFilter.t :=
  GlobalFilter.mk None
    (Some (NamespaceFilter.mk (Label.mk "ns" "prod")
             (Some {["c2" := ["default"]]}) (fnv1a32 "nsprod")))
    [ClusterTraffic.mk "c1" 8; ClusterTraffic.mk "c2" 2] ["c1"; "c2"] 0.

Definition gdp_ns_prod : GlobalDeploymentPolicy :=
  gdp_of ∅ {["ns" := "prod"]} ["c1"] [mkTrafficSplitElem "c1" 3].

Definition gdp_app_only : GlobalDeploymentPolicy :=
  gdp_of {["tier" := "web"]} ∅ ["c1"] [mkTrafficSplitElem "c1" 3].

Definition gdp_ns_only : GlobalDeploymentPolicy :=
  gdp_of ∅ {["tie" := "rweb"]} ["c1"] [mkTrafficSplitElem "c1" 3].

Definition gdp_c1_12 : GlobalDeploymentPolicy :=
  gdp_of ∅ ∅ ["c1"; "c11"] [mkTrafficSplitElem "c1" 12].

Definition gdp_c11_2 : GlobalDeploymentPolicy :=
  gdp_of ∅ ∅ ["c1"; "c11"] [mkTrafficSplitElem "c11" 2].

(** An ingress-host metadata with another path list. *)
Definition with_paths (ing : IngressHostMeta.t) (paths : list string)
  : IngressHostMeta.t :=
  IngressHostMeta.mk (IngressHostMeta.Cluster ing)
    (IngressHostMeta.IngName ing) (IngressHostMeta.ObjName ing)
    (IngressHostMeta.Namespace ing) (IngressHostMeta.Hostname ing)
    (IngressHostMeta.IPAddr ing) (IngressHostMeta.Labels ing) paths
    (IngressHostMeta.TLS ing).

(** A stand-in for [utils.Stringify] in examples. *)
Definition join_paths (l : list string) : string :=
  fold_right (fun s acc => s +:+ "," +:+ acc) "" l.

Definition route_of (path : string) (tls : option Routev1.TLSConfig)
  : Routev1.Route :=
  Routev1.mkRoute "shop" "default" {["app" := "gslb"]}
    (Routev1.mkRouteSpec "shop.example" path tls).

Definition route_ip (_ : Routev1.Route) : string * bool := ("10.0.0.3", true).
(** * Properties *)

(** ** Lists of strings *)

Lemma PresentInList_elem_of (key : string) (strList : list string) :
  PresentInList key strList = true <-> key ∈ strList.
Proof.
  induction strList as [|str rest IH]; simpl.
  - split; [discriminate | inversion 1].
  - destruct (String.eqb_spec str key) as [->|Hne].
    + split; [intros _; left | reflexivity].
    + rewrite IH. split; [by right|].
      intros [Heq|Hin]%elem_of_cons; [congruence | done].
Qed.

Lemma PresentInList_false (key : string) (strList : list string) :
  PresentInList key strList = false <-> key ∉ strList.
Proof.
  rewrite <- PresentInList_elem_of.
  destruct (PresentInList key strList); split; congruence.
Qed.

(** ** The checksum is a sum modulo 2^32 *)

Lemma add32_range (a b : Z) : 0 <= add32 a b < 2 ^ 32.
Proof. unfold add32, u32. apply Z.mod_pos_bound. lia. Qed.

Lemma add32_swap (a x y : Z) : add32 (add32 a x) y = add32 (add32 a y) x.
Proof.
  unfold add32, u32.
  rewrite !Zplus_mod_idemp_l. f_equal. lia.
Qed.

Section FoldAdd32.
Context {A : Type} (f : A -> Z).

Lemma fold_add32_Permutation (l1 l2 : list A) :
  l1 ≡ₚ l2 ->
  forall a, fold_left (fun acc x => add32 acc (f x)) l1 a
            = fold_left (fun acc x => add32 acc (f x)) l2 a.
Proof.
  induction 1 as [|x l1 l2 _ IH|x y l|l1 l2 l3 _ IH1 _ IH2]; intros a; simpl.
  - reflexivity.
  - apply IH.
  - by rewrite add32_swap.
  - by rewrite IH1, IH2.
Qed.

End FoldAdd32.

Section ChecksumFacts.
Variable Hash : string -> Z.

Lemma createNewNSFilter_wf (lbl : gmap string string) :
  NSFilter_wf Hash (createNewNSFilter Hash lbl).
Proof.
  unfold createNewNSFilter, NSFilter_wf.
  by destruct (getLabelKeyAndValue lbl) as [k v].
Qed.

Lemma AddNS_wf (nsf nsf' : NamespaceFilter.t) (cname ns : string) :
  NSFilter_wf Hash nsf -> AddNS nsf cname ns = Some nsf' ->
  NSFilter_wf Hash nsf'.
Proof.
  unfold AddNS, NSFilter_wf. intros Hwf.
  destruct (NamespaceFilter.SelectedNS nsf) as [sel|]; [|discriminate].
  destruct (sel !! cname) as [nsList|].
  - destruct (negb (PresentInList ns nsList)); intros [= <-]; exact Hwf.
  - intros [= <-]. exact Hwf.
Qed.

Lemma GetNewGlobalFilter_wf : GlobalFilter_wf Hash GetNewGlobalFilter.
Proof. intros nsf [=]. Qed.

Lemma DeleteFromGlobalFilter_wf gf gdp :
  GlobalFilter_wf Hash (DeleteFromGlobalFilter gf gdp).
Proof. intros nsf [=]. Qed.

Lemma ComputeChecksum_fields gf :
  GlobalFilter.AppFilter (ComputeChecksum Hash gf) = GlobalFilter.AppFilter gf
  /\ GlobalFilter.NSFilter (ComputeChecksum Hash gf) = GlobalFilter.NSFilter gf
  /\ GlobalFilter.TrafficSplit (ComputeChecksum Hash gf)
     = GlobalFilter.TrafficSplit gf
  /\ GlobalFilter.ApplicableClusters (ComputeChecksum Hash gf)
     = GlobalFilter.ApplicableClusters gf.
Proof. by unfold ComputeChecksum. Qed.

Lemma AddToFilter_wf gf gdp :
  GlobalFilter_wf Hash gf -> GlobalFilter_wf Hash (AddToFilter Hash gf gdp).
Proof.
  intros Hwf nsf. unfold AddToFilter.
  destruct (ComputeChecksum_fields
    (GlobalFilter.mk
       (if Nat.eqb (size (AppSelector_Label (MatchRulesOf (Spec gdp)))) 1
        then let '(k, v) :=
               getLabelKeyAndValue (AppSelector_Label (MatchRulesOf (Spec gdp)))
             in Some (AppFilter.mk (Label.mk k v))
        else GlobalFilter.AppFilter gf)
       (if Nat.eqb (size (NamespaceSelector_Label (MatchRulesOf (Spec gdp)))) 1
        then Some (createNewNSFilter Hash
                     (NamespaceSelector_Label (MatchRulesOf (Spec gdp))))
        else GlobalFilter.NSFilter gf)
       (appendTrafficSplit (GlobalFilter.TrafficSplit gf)
          (TrafficSplit (Spec gdp)))
       (MatchClusters (Spec gdp)) (GlobalFilter.Checksum gf)))
    as (_ & -> & _). simpl.
  destruct (Nat.eqb _ 1).
  - intros [= <-]. apply createNewNSFilter_wf.
  - apply Hwf.
Qed.

Lemma UpdateGlobalFilter_wf gf oldGDP newGDP :
  GlobalFilter_wf Hash gf ->
  GlobalFilter_wf Hash (fst (UpdateGlobalFilter Hash gf oldGDP newGDP)).
Proof.
  intros Hwf. unfold UpdateGlobalFilter.
  destruct (Z.eqb _ _); simpl; [exact Hwf|].
  intros nsf Hnsf. simpl in Hnsf.
  exact (AddToFilter_wf _ _ GetNewGlobalFilter_wf nsf Hnsf).
Qed.

Lemma AddNSToNSFilter_wf gf gf' cname ns err :
  GlobalFilter_wf Hash gf -> AddNSToNSFilter gf cname ns = Some (gf', err) ->
  GlobalFilter_wf Hash gf'.
Proof.
  unfold AddNSToNSFilter. intros Hwf.
  destruct (GlobalFilter.NSFilter gf) as [nsf|] eqn:Hnsf.
  - destruct (AddNS nsf cname ns) as [nsf'|] eqn:Hadd; [|discriminate].
    intros [= <- <-] n [= <-]. eapply AddNS_wf; eauto.
  - intros [= <- <-]. exact Hwf.
Qed.

Lemma ComputeChecksum_wf gf :
  GlobalFilter_wf Hash gf -> GlobalFilter_wf Hash (ComputeChecksum Hash gf).
Proof. intros Hwf nsf Hnsf. by apply Hwf. Qed.

(** Every state the package reaches is well formed. *)
Lemma Reachable_wf gf : Reachable Hash gf -> GlobalFilter_wf Hash gf.
Proof.
  induction 1 as [|gf gdp _ IH|gf o n _ IH|gf gdp _ IH|gf gf' c ns err _ IH Hadd
                  |gf _ IH].
  - apply GetNewGlobalFilter_wf.
  - by apply AddToFilter_wf.
  - by apply UpdateGlobalFilter_wf.
  - apply DeleteFromGlobalFilter_wf.
  - eapply AddNSToNSFilter_wf; eauto.
  - by apply ComputeChecksum_wf.
Qed.

(** The checksum of a state, as [ComputeChecksum] leaves it, depends on
    the content up to order only. *)
Lemma ComputeChecksum_same_content gf1 gf2 :
  GlobalFilter_wf Hash gf1 -> GlobalFilter_wf Hash gf2 ->
  same_content gf1 gf2 ->
  GlobalFilter.Checksum (ComputeChecksum Hash gf1)
  = GlobalFilter.Checksum (ComputeChecksum Hash gf2).
Proof.
  intros Hwf1 Hwf2 (Happ & Hns & Hcl & Hts).
  unfold ComputeChecksum; simpl.
  rewrite (fold_add32_Permutation _ _ _ Hts).
  rewrite (fold_add32_Permutation _ _ _ Hcl).
  f_equal. f_equal.
  assert (Hc1 :
    match GlobalFilter.AppFilter gf1 with
    | Some af => add32 0 (Hash (AppFilter.Key af +:+ AppFilter.Value af))
    | None => 0
    end =
    match GlobalFilter.AppFilter gf2 with
    | Some af => add32 0 (Hash (AppFilter.Key af +:+ AppFilter.Value af))
    | None => 0
    end).
  { destruct (GlobalFilter.AppFilter gf1) as [[l1]|],
             (GlobalFilter.AppFilter gf2) as [[l2]|];
      simpl in Happ; try discriminate; [|done].
    injection Happ as ->. reflexivity. }
  rewrite Hc1.
  destruct (GlobalFilter.NSFilter gf1) as [n1|] eqn:E1,
           (GlobalFilter.NSFilter gf2) as [n2|] eqn:E2;
    simpl in Hns; try discriminate; [|done].
  injection Hns as Hlbl.
  unfold GetChecksum.
  rewrite (Hwf1 n1 E1), (Hwf2 n2 E2), Hlbl. reflexivity.
Qed.

End ChecksumFacts.

(** ** C5: the checksum does not depend on the order of the lists *)

(** C5. Two filter states with the same application label, the same
    namespace label and the same multisets of applicable clusters and of
    traffic-split entries get the same checksum from [ComputeChecksum],
    whatever the order of the lists. The namespace filters are those the
    package builds ([GlobalFilter_wf]). *)
Theorem ComputeChecksum_order_independent (Hash : string -> Z)
  (gf1 gf2 : GlobalFilter.t) :
  GlobalFilter_wf Hash gf1 -> GlobalFilter_wf Hash gf2 ->
  same_content gf1 gf2 ->
  GlobalFilter.Checksum (ComputeChecksum Hash gf1)
  = GlobalFilter.Checksum (ComputeChecksum Hash gf2).
Proof. apply ComputeChecksum_same_content. Qed.

Lemma ComputeChecksum_order_independent_witness :
  GlobalFilter_wf fnv1a32 gf_c1_c2 /\ GlobalFilter_wf fnv1a32 gf_c2_c1
  /\ same_content gf_c1_c2 gf_c2_c1
  /\ GlobalFilter.Checksum (ComputeChecksum fnv1a32 gf_c1_c2)
     = GlobalFilter.Checksum (ComputeChecksum fnv1a32 gf_c2_c1).
Proof.
  assert (Hwf1 : GlobalFilter_wf fnv1a32 gf_c1_c2).
  { intros nsf [= <-]. vm_compute. reflexivity. }
  assert (Hwf2 : GlobalFilter_wf fnv1a32 gf_c2_c1).
  { intros nsf [= <-]. vm_compute. reflexivity. }
  assert (Hsame : same_content gf_c1_c2 gf_c2_c1).
  { split; [reflexivity|]. split; [reflexivity|].
    split; simpl; apply perm_swap. }
  split; [exact Hwf1|]. split; [exact Hwf2|]. split; [exact Hsame|].
  exact (ComputeChecksum_order_independent fnv1a32 gf_c1_c2 gf_c2_c1
           Hwf1 Hwf2 Hsame).
Defined.

(** ** C6: when the traffic weights count as changed *)

Lemma scanNewMembers_absent om news found :
  Cluster om ∉ Cluster <$> news ->
  scanNewMembers om news found = (false, found).
Proof.
  induction news as [|nm rest IH]; simpl; [done|].
  rewrite ?fmap_cons, not_elem_of_cons. intros [Hne Hrest].
  destruct (String.eqb_spec (Cluster om) (Cluster nm)); [done|].
  by apply IH.
Qed.

Lemma scanOldMembers_absent olds news :
  (exists om, om ∈ olds /\ Cluster om ∉ Cluster <$> news) ->
  scanOldMembers olds news = true.
Proof.
  induction olds as [|o rest IH]; intros (om & Hin & Habs).
  - inversion Hin.
  - simpl. destruct (scanNewMembers o news false) as [ret found] eqn:E.
    destruct ret; [done|]. destruct found; simpl; [|done].
    apply IH. exists om. split; [|done].
    apply elem_of_cons in Hin as [->|Hin]; [|done].
    rewrite scanNewMembers_absent in E by done. discriminate.
Qed.

Lemma scanNewMembers_agree om news :
  (forall nm, nm ∈ news -> Cluster nm = Cluster om -> Weight nm = Weight om) ->
  forall found,
    found = true \/ Cluster om ∈ Cluster <$> news ->
    scanNewMembers om news found = (false, true).
Proof.
  induction news as [|nm rest IH]; intros Hw found Hf; simpl.
  - destruct Hf as [->|Hin]; [done | inversion Hin].
  - destruct (String.eqb_spec (Cluster om) (Cluster nm)) as [Heq|Hne].
    + assert (Hweq : Weight nm = Weight om) by (apply Hw; [left | done]).
      rewrite Hweq, Z.eqb_refl. simpl.
      apply IH; [|by left]. intros n Hn. apply Hw. by right.
    + apply IH; [intros n Hn; apply Hw; by right|].
      destruct Hf as [->|Hin]; [by left|right].
      rewrite ?fmap_cons in Hin.
      apply elem_of_cons in Hin as [?|?]; [congruence | done].
Qed.

Lemma scanOldMembers_agree olds news :
  (forall om, om ∈ olds -> scanNewMembers om news false = (false, true)) ->
  scanOldMembers olds news = false.
Proof.
  induction olds as [|o rest IH]; intros H; simpl; [done|].
  rewrite (H o) by left. simpl. apply IH. intros om Hom. apply H. by right.
Qed.

(** C6, as the code has it. [isTrafficWeightChanged] returns true when a
    cluster of the old traffic split is absent from the new one, whatever
    the other weights are. It returns false when the new traffic split has
    as many entries as the old one and the same set of (cluster, weight)
    pairs -- in particular when it is the old one in another order --
    provided no cluster is listed with two different weights. *)
Theorem isTrafficWeightChanged_removed_or_reordered
  (new old : GlobalDeploymentPolicy) :
  ((exists om, om ∈ TrafficSplit (Spec old)
               /\ Cluster om ∉ Cluster <$> TrafficSplit (Spec new)) ->
   isTrafficWeightChanged new old = true)
  /\ (length (TrafficSplit (Spec old)) = length (TrafficSplit (Spec new)) ->
      (forall x, x ∈ TrafficSplit (Spec old) <-> x ∈ TrafficSplit (Spec new)) ->
      one_weight_per_cluster (TrafficSplit (Spec new)) ->
      isTrafficWeightChanged new old = false)
  /\ (TrafficSplit (Spec new) ≡ₚ TrafficSplit (Spec old) ->
      one_weight_per_cluster (TrafficSplit (Spec old)) ->
      isTrafficWeightChanged new old = false).
Proof.
  assert (Hset :
    length (TrafficSplit (Spec old)) = length (TrafficSplit (Spec new)) ->
    (forall x, x ∈ TrafficSplit (Spec old) <-> x ∈ TrafficSplit (Spec new)) ->
    one_weight_per_cluster (TrafficSplit (Spec new)) ->
    isTrafficWeightChanged new old = false).
  { intros Hlen Hsame Hone. unfold isTrafficWeightChanged.
    rewrite Hlen, Nat.eqb_refl. simpl.
    apply scanOldMembers_agree. intros om Hom.
    apply Hsame in Hom.
    apply scanNewMembers_agree.
    - intros nm Hnm Hc. by apply Hone.
    - right. by apply list_elem_of_fmap_2. }
  split; [|split; [exact Hset|]].
  - intros Habs. unfold isTrafficWeightChanged.
    destruct (negb _); [done|]. by apply scanOldMembers_absent.
  - intros Hperm Hone. apply Hset.
    + by rewrite Hperm.
    + intros x. by rewrite Hperm.
    + intros a b Ha Hb. rewrite Hperm in Ha, Hb. by apply Hone.
Qed.

Lemma isTrafficWeightChanged_removed_or_reordered_witness :
  isTrafficWeightChanged gdp_c1_only gdp_c1_c2 = true
  /\ isTrafficWeightChanged gdp_c2_c1 gdp_c1_c2 = false.
Proof.
  destruct (isTrafficWeightChanged_removed_or_reordered gdp_c1_only gdp_c1_c2)
    as (Hrem & _ & _).
  destruct (isTrafficWeightChanged_removed_or_reordered gdp_c2_c1 gdp_c1_c2)
    as (_ & _ & Hperm).
  split.
  - apply Hrem. exists (mkTrafficSplitElem "c2" 2). split.
    + simpl. right. left.
    + simpl. intros Hin. apply elem_of_cons in Hin as [Heq|Hin].
      * discriminate Heq.
      * inversion Hin.
  - apply Hperm.
    + simpl. apply perm_swap.
    + intros a b Ha Hb. simpl in Ha, Hb.
      apply elem_of_cons in Ha as [->|Ha]; apply elem_of_cons in Hb as [->|Hb];
        try (apply list_elem_of_singleton in Ha as ->);
        try (apply list_elem_of_singleton in Hb as ->);
        simpl; intros Hc; (reflexivity || discriminate Hc).
Defined.

(** C6 as first stated fails: the same two (cluster, weight) pairs in the
    other order, and the function answers true. *)
Lemma isTrafficWeightChanged_reordered_counterexample :
  TrafficSplit (Spec gdp_dup_21) ≡ₚ TrafficSplit (Spec gdp_dup_12)
  /\ (forall x, x ∈ TrafficSplit (Spec gdp_dup_12)
                <-> x ∈ TrafficSplit (Spec gdp_dup_21))
  /\ isTrafficWeightChanged gdp_dup_21 gdp_dup_12 = true.
Proof.
  split; [apply perm_swap|]. split; [|reflexivity].
  intros x. simpl. rewrite !elem_of_cons. tauto.
Qed.

(** ** C3: what [AddToFilter] writes *)

Lemma appendTrafficSplit_app cur ts :
  appendTrafficSplit cur ts = cur ++ (toClusterTraffic <$> ts).
Proof.
  unfold appendTrafficSplit. revert cur.
  induction ts as [|e ts IH]; intros cur; simpl.
  - by rewrite app_nil_r.
  - rewrite IH, <- app_assoc. reflexivity.
Qed.

Lemma getLabelKeyAndValue_singleton (k v : string) :
  getLabelKeyAndValue {[k := v]} = (k, v).
Proof. unfold getLabelKeyAndValue. by rewrite map_to_list_singleton. Qed.

Lemma size_1_singleton (lbl : gmap string string) :
  size lbl = 1%nat -> exists k v, lbl = {[k := v]}.
Proof.
  intros Hsz. rewrite <- length_map_to_list in Hsz.
  destruct (map_to_list lbl) as [|[k v] [|? ?]] eqn:E; try discriminate.
  exists k, v. rewrite <- (list_to_map_to_list lbl), E. simpl.
  by rewrite insert_empty.
Qed.

Lemma ComputeChecksum_idemp Hash gf :
  ComputeChecksum Hash (ComputeChecksum Hash gf) = ComputeChecksum Hash gf.
Proof. reflexivity. Qed.

(** C3, as the code has it. After [AddToFilter] on a filter [gf] with a
    policy [p]: the applicable clusters are those of [p]; the traffic split
    is the one [gf] held followed by the entries of [p], so it is exactly
    the list of [p] when [gf] held none; the application filter and the
    namespace filter are built from the label pair of [p] when [p] gives
    exactly one, and are those [gf] held otherwise; and the checksum is the
    one [ComputeChecksum] gives for that content. *)
Theorem AddToFilter_fields (Hash : string -> Z) (gf : GlobalFilter.t)
  (p : GlobalDeploymentPolicy) :
  let gf' := AddToFilter Hash gf p in
  let appLbl := AppSelector_Label (MatchRulesOf (Spec p)) in
  let nsLbl := NamespaceSelector_Label (MatchRulesOf (Spec p)) in
  GlobalFilter.ApplicableClusters gf' = MatchClusters (Spec p)
  /\ GlobalFilter.TrafficSplit gf'
     = GlobalFilter.TrafficSplit gf
       ++ (toClusterTraffic <$> TrafficSplit (Spec p))
  /\ (GlobalFilter.TrafficSplit gf = [] ->
      GlobalFilter.TrafficSplit gf'
      = toClusterTraffic <$> TrafficSplit (Spec p))
  /\ (forall k v, appLbl = {[k := v]} ->
      GlobalFilter.AppFilter gf' = Some (AppFilter.mk (Label.mk k v)))
  /\ (size appLbl <> 1%nat ->
      GlobalFilter.AppFilter gf' = GlobalFilter.AppFilter gf)
  /\ (forall k v, nsLbl = {[k := v]} ->
      GlobalFilter.NSFilter gf'
      = Some (NamespaceFilter.mk (Label.mk k v) None (Hash (k +:+ v))))
  /\ (size nsLbl <> 1%nat ->
      GlobalFilter.NSFilter gf' = GlobalFilter.NSFilter gf)
  /\ ComputeChecksum Hash gf' = gf'.
Proof.
  intros gf' appLbl nsLbl. subst gf'. unfold AddToFilter.
  fold appLbl nsLbl. rewrite appendTrafficSplit_app.
  split; [reflexivity|]. split; [reflexivity|].
  split; [by intros ->|].
  split.
  { intros k v Hk. simpl. rewrite Hk, map_size_singleton. simpl.
    by rewrite getLabelKeyAndValue_singleton. }
  split.
  { intros Hsz. simpl. by apply Nat.eqb_neq in Hsz as ->. }
  split.
  { intros k v Hk. simpl. rewrite Hk, map_size_singleton. simpl.
    unfold createNewNSFilter. by rewrite getLabelKeyAndValue_singleton. }
  split.
  { intros Hsz. simpl. by apply Nat.eqb_neq in Hsz as ->. }
  apply ComputeChecksum_idemp.
Qed.

Lemma AddToFilter_fields_witness :
  GlobalFilter.TrafficSplit (AddToFilter fnv1a32 GetNewGlobalFilter gdp_c1_c2)
  = [ClusterTraffic.mk "c1" 8; ClusterTraffic.mk "c2" 2]
  /\ GlobalFilter.AppFilter (AddToFilter fnv1a32 GetNewGlobalFilter gdp_c1_c2)
     = Some (AppFilter.mk (Label.mk "app" "gslb"))
  /\ GlobalFilter.NSFilter (AddToFilter fnv1a32 gf_c1_c2 gdp_c1_c2)
     = GlobalFilter.NSFilter gf_c1_c2.
Proof.
  destruct (AddToFilter_fields fnv1a32 GetNewGlobalFilter gdp_c1_c2)
    as (_ & _ & Hts & Happ & _).
  destruct (AddToFilter_fields fnv1a32 gf_c1_c2 gdp_c1_c2)
    as (_ & _ & _ & _ & _ & _ & Hns & _).
  split; [exact (Hts eq_refl)|].
  split; [exact (Happ "app" "gslb" eq_refl)|].
  apply Hns. vm_compute. discriminate.
Defined.

(** C3 as first stated fails: on a filter that holds the weight of [c1],
    the traffic split after [AddToFilter] is not the list of the policy. *)
Lemma AddToFilter_accumulates_counterexample :
  GlobalFilter.TrafficSplit (AddToFilter fnv1a32 gf_holding_c1 gdp_c2_7)
  = [ClusterTraffic.mk "c1" 5; ClusterTraffic.mk "c2" 7]
  /\ GlobalFilter.TrafficSplit (AddToFilter fnv1a32 gf_holding_c1 gdp_c2_7)
     <> toClusterTraffic <$> TrafficSplit (Spec gdp_c2_7).
Proof. split; [reflexivity | discriminate]. Qed.

(** ** C2: [UpdateGlobalFilter] *)

Lemma selectorOf_AppFilter lbl :
  AppFilter.Label <$>
    (if Nat.eqb (size lbl) 1
     then let '(k, v) := getLabelKeyAndValue lbl in
          Some (AppFilter.mk (Label.mk k v))
     else None)
  = selectorOf lbl.
Proof.
  unfold selectorOf. destruct (Nat.eqb _ _); [|done].
  by destruct (getLabelKeyAndValue lbl).
Qed.

Lemma selectorOf_NSFilter Hash lbl :
  NamespaceFilter.Label <$>
    (if Nat.eqb (size lbl) 1 then Some (createNewNSFilter Hash lbl) else None)
  = selectorOf lbl.
Proof.
  unfold selectorOf, createNewNSFilter. destruct (Nat.eqb _ _); [|done].
  by destruct (getLabelKeyAndValue lbl).
Qed.

(** Built on a new filter, two documents with the same normal form give
    the same checksum. *)
Lemma AddToFilter_new_same_policy Hash old new :
  same_policy old new ->
  GlobalFilter.Checksum (AddToFilter Hash GetNewGlobalFilter old)
  = GlobalFilter.Checksum (AddToFilter Hash GetNewGlobalFilter new).
Proof.
  intros (Happ & Hns & Hcl & Hts). unfold AddToFilter.
  apply ComputeChecksum_same_content.
  - intros nsf. simpl. destruct (Nat.eqb _ _); [|done].
    intros [= <-]. apply createNewNSFilter_wf.
  - intros nsf. simpl. destruct (Nat.eqb _ _); [|done].
    intros [= <-]. apply createNewNSFilter_wf.
  - split; [|split; [|split]]; simpl.
    + by rewrite !selectorOf_AppFilter.
    + by rewrite !selectorOf_NSFilter.
    + exact Hcl.
    + rewrite !appendTrafficSplit_app. simpl. by rewrite Hts.
Qed.

(** ** C1: the metadata of the hosts of an ingress *)

Lemma nodup_first_filter (P : string -> Prop) `{!forall x, Decision (P x)}
  (l : list string) :
  nodup_first (filter P l) = filter P (nodup_first l).
Proof.
  induction l as [|x l IH]; [done|].
  rewrite filter_cons. destruct (decide (P x)) as [HP|HP]; simpl.
  - rewrite filter_cons, decide_True by done. f_equal.
    rewrite IH. rewrite !list_filter_filter.
    apply list_filter_iff. tauto.
  - rewrite filter_cons, decide_False by done.
    rewrite IH, list_filter_filter.
    apply list_filter_iff. intros y. split; [|tauto].
    intros Hy. split; [done | by intros ->].
Qed.

(** Appending the keys not yet listed, one by one, is deduplication that
    keeps first occurrences. *)
Lemma append_absent_nodup_first (keys acc : list string) :
  fold_left
    (fun pathList k =>
       if PresentInList k pathList then pathList else pathList ++ [k])
    keys acc
  = acc ++ nodup_first (filter (fun k => k ∉ acc) keys).
Proof.
  revert acc. induction keys as [|k keys IH]; intros acc; simpl.
  - by rewrite app_nil_r.
  - rewrite filter_cons.
    destruct (PresentInList k acc) eqn:E.
    + apply PresentInList_elem_of in E.
      rewrite decide_False by tauto. apply IH.
    + apply PresentInList_false in E.
      rewrite decide_True by done. simpl.
      rewrite IH, <- app_assoc. simpl. do 2 f_equal.
      rewrite <- nodup_first_filter, list_filter_filter.
      f_equal. apply list_filter_iff. intros y.
      rewrite elem_of_app, list_elem_of_singleton. tauto.
Qed.

Lemma addRulePaths_fold paths pathList :
  addRulePaths paths pathList
  = fold_left
      (fun pathList k =>
         if PresentInList k pathList then pathList else pathList ++ [k])
      (pathKeyOf <$> paths) pathList.
Proof.
  revert pathList. induction paths as [|p paths IH]; intros pathList; simpl;
    [done|].
  assert (Hk : (if negb (String.eqb (V1beta1.Path p) "")
                then V1beta1.Path p else "/") = pathKeyOf p).
  { unfold pathKeyOf. by destruct (String.eqb (V1beta1.Path p) ""). }
  rewrite Hk. destruct (PresentInList _ pathList); apply IH.
Qed.

Lemma filter_not_in_nil (l : list string) : filter (fun k => k ∉ []) l = l.
Proof.
  induction l as [|x l IH]; [done|].
  rewrite filter_cons, decide_True, IH; [done|]. inversion 1.
Qed.

Lemma scanRules_find host rules :
  scanRules host rules []
  = nodup_first
      (match find (fun r => String.eqb (V1beta1.Host r) host) rules with
       | Some r => rulePathKeys r
       | None => []
       end).
Proof.
  induction rules as [|rule rest IH]; simpl; [done|].
  destruct (String.eqb (V1beta1.Host rule) host); simpl; [|exact IH].
  unfold rulePathKeys. destruct (V1beta1.HTTP rule) as [http|]; [|done].
  rewrite addRulePaths_fold, append_absent_nodup_first. simpl.
  by rewrite filter_not_in_nil.
Qed.

Lemma getPathsForHost_first_rule host ingress :
  getPathsForHost host ingress = paths_of_first_rule host ingress.
Proof.
  unfold getPathsForHost, paths_of_first_rule.
  rewrite scanRules_find. by destruct (nodup_first _).
Qed.

(** With one rule per host at most, the first rule of a host is all of
    them. *)
Lemma paths_of_all_rules_first host ingress :
  NoDup (V1beta1.Host <$> V1beta1.Rules (V1beta1.Spec ingress)) ->
  paths_of_all_rules host ingress = paths_of_first_rule host ingress.
Proof.
  unfold paths_of_all_rules, paths_of_first_rule.
  generalize (V1beta1.Rules (V1beta1.Spec ingress)). intros rules Hnd.
  do 2 f_equal.
  induction rules as [|r rest IH]; simpl; [done|].
  rewrite fmap_cons in Hnd. apply NoDup_cons in Hnd as [Hnotin Hnd].
  destruct (String.eqb_spec (V1beta1.Host r) host) as [<-|Hne].
  - assert (Hnil : forall rs, V1beta1.Host r ∉ V1beta1.Host <$> rs ->
      flat_map (fun r0 => if String.eqb (V1beta1.Host r0) (V1beta1.Host r)
                          then rulePathKeys r0 else []) rs = []).
    { induction rs as [|r' rs IHrs]; simpl; [done|].
      rewrite ?fmap_cons, not_elem_of_cons. intros [Hne Hrs].
      destruct (String.eqb_spec (V1beta1.Host r') (V1beta1.Host r));
        [congruence|]. by apply IHrs. }
    by rewrite Hnil, app_nil_r.
  - by apply IH.
Qed.

Lemma addTLSHosts_elem_of x hosts tlsHosts :
  x ∈ addTLSHosts hosts tlsHosts <-> x ∈ tlsHosts \/ x ∈ hosts.
Proof.
  revert tlsHosts. induction hosts as [|h hosts IH]; intros tlsHosts; simpl.
  - rewrite elem_of_nil. tauto.
  - destruct (PresentInList h tlsHosts) eqn:E; rewrite IH, elem_of_cons.
    + apply PresentInList_elem_of in E. split; [tauto|].
      intros [?|[->|?]]; tauto.
    + rewrite elem_of_app, list_elem_of_singleton. tauto.
Qed.

Lemma getTLSHosts_elem_of x ingress :
  x ∈ getTLSHosts ingress <-> in_TLS_hosts x ingress.
Proof.
  unfold getTLSHosts, in_TLS_hosts.
  generalize (V1beta1.TLS (V1beta1.Spec ingress)). intros blocks.
  assert (H : forall acc,
    x ∈ fold_left (fun tlsHosts hosts =>
                     addTLSHosts (V1beta1.Hosts hosts) tlsHosts) blocks acc
    <-> x ∈ acc \/ exists tls, tls ∈ blocks /\ x ∈ V1beta1.Hosts tls).
  { induction blocks as [|b blocks IH]; intros acc; simpl.
    - split; [by left|]. intros [?|(tls & Hin & _)]; [done | inversion Hin].
    - rewrite IH, addTLSHosts_elem_of. split.
      + intros [[?|?]|(tls & Hin & Hx)].
        * by left.
        * right. exists b. split; [left | done].
        * right. exists tls. split; [by right | done].
      + intros [?|(tls & Hin & Hx)]; [tauto|].
        apply elem_of_cons in Hin as [->|Hin]; [tauto|].
        right. by exists tls. }
  rewrite H, elem_of_nil. tauto.
Qed.

Lemma fold_left_snoc_map {A B : Type} (f : A -> B) (l : list A) (acc : list B) :
  fold_left (fun acc x => acc ++ [f x]) l acc = acc ++ (f <$> l).
Proof.
  revert acc. induction l as [|x l IH]; intros acc; simpl.
  - by rewrite app_nil_r.
  - by rewrite IH, <- app_assoc.
Qed.

(** C1, as the code has it. [GetIngressHostMeta] gives one metadata per
    host of the ingress that bears an address, in order. The path list of
    the metadata of a host is the deduplicated list, in order of insertion,
    of the paths of the first rule of the ingress for that host (the empty
    path reads "/"), and ["/"] when that gives no path; it is the union over
    all the rules of the host when no two rules share a host. The TLS flag
    is true exactly when the host is listed in a TLS block of the
    ingress. *)
Theorem GetIngressHostMeta_paths_and_TLS
  (IngressGetIPAddrs : V1beta1.Ingress -> list IngressHostIP.t)
  (ingress : V1beta1.Ingress) (cname : string) (i : nat)
  (hip : IngressHostIP.t) :
  IngressGetIPAddrs ingress !! i = Some hip ->
  length (GetIngressHostMeta IngressGetIPAddrs ingress cname)
  = length (IngressGetIPAddrs ingress)
  /\ exists m,
      GetIngressHostMeta IngressGetIPAddrs ingress cname !! i = Some m
      /\ IngressHostMeta.Hostname m = IngressHostIP.Hostname hip
      /\ IngressHostMeta.Paths m
         = paths_of_first_rule (IngressHostIP.Hostname hip) ingress
      /\ (NoDup (V1beta1.Host <$> V1beta1.Rules (V1beta1.Spec ingress)) ->
          IngressHostMeta.Paths m
          = paths_of_all_rules (IngressHostIP.Hostname hip) ingress)
      /\ NoDup (IngressHostMeta.Paths m)
      /\ (IngressHostMeta.TLS m = true
          <-> in_TLS_hosts (IngressHostIP.Hostname hip) ingress).
Proof.
  intros Hi. unfold GetIngressHostMeta.
  rewrite fold_left_snoc_map. simpl.
  split; [by rewrite length_fmap|].
  rewrite list_lookup_fmap, Hi. simpl. eexists. split; [reflexivity|]. simpl.
  split; [reflexivity|].
  split; [apply getPathsForHost_first_rule|].
  split.
  { intros Hnd. rewrite paths_of_all_rules_first by done.
    apply getPathsForHost_first_rule. }
  split.
  { rewrite getPathsForHost_first_rule. unfold paths_of_first_rule.
    assert (Hnd : forall l, NoDup (nodup_first l)).
    { induction l as [|x l IH]; simpl; constructor.
      - rewrite list_elem_of_filter. tauto.
      - by apply NoDup_filter. }
    specialize (Hnd (match find (fun r => String.eqb (V1beta1.Host r)
                                            (IngressHostIP.Hostname hip))
                             (V1beta1.Rules (V1beta1.Spec ingress)) with
                     | Some r => rulePathKeys r
                     | None => []
                     end)).
    destruct (nodup_first _); simpl; [|done].
    apply NoDup_singleton. }
  rewrite <- getTLSHosts_elem_of, <- PresentInList_elem_of.
  by destruct (PresentInList _ _).
Qed.

Lemma GetIngressHostMeta_paths_and_TLS_witness :
  ips_two_hosts ing_two_hosts !! 0%nat
  = Some (IngressHostIP.mk "a.example" "10.0.0.1")
  /\ exists m,
      GetIngressHostMeta ips_two_hosts ing_two_hosts "c1" !! 0%nat = Some m
      /\ IngressHostMeta.Paths m = ["/x"; "/y"]
      /\ IngressHostMeta.TLS m = true.
Proof.
  split; [reflexivity|].
  destruct (GetIngressHostMeta_paths_and_TLS ips_two_hosts ing_two_hosts "c1"
              0%nat (IngressHostIP.mk "a.example" "10.0.0.1") eq_refl)
    as (_ & m & Hm & _ & Hp & _ & _ & Htls).
  exists m. split; [exact Hm|]. split.
  - rewrite Hp. vm_compute. reflexivity.
  - apply Htls. exists (V1beta1.mkIngressTLS ["a.example"]).
    split; simpl; left.
Defined.

(** The ingress of the design document: two hosts, one under TLS with two
    distinct paths, one without TLS and without paths. *)
Example GetIngressHostMeta_two_hosts :
  (fun m => (IngressHostMeta.Hostname m, IngressHostMeta.Paths m,
             IngressHostMeta.TLS m))
    <$> GetIngressHostMeta ips_two_hosts ing_two_hosts "c1"
  = [("a.example", ["/x"; "/y"], true); ("b.example", ["/"], false)].
Proof. vm_compute. reflexivity. Qed.

(** C1 as first stated fails: with two rules for one host, the path list
    holds the paths of the first rule only, not the union. *)
Lemma GetIngressHostMeta_union_counterexample :
  IngressHostMeta.Paths <$> GetIngressHostMeta ips_one_host ing_two_rules "c1"
  = [["/x"]]
  /\ paths_of_all_rules "a.example" ing_two_rules = ["/x"; "/y"].
Proof. split; vm_compute; reflexivity. Qed.

(** ** C4: adding to and deleting from the ingress store *)

Section ClusterStoreFacts.
Context {Obj : Type}.
Implicit Types (s : ClusterStore.t Obj) (obj : Obj).

Lemma Get_AddOrUpdate_eq s obj cname ns objName :
  ClusterStore.GetClusterNSObjectByName
    (ClusterStore.AddOrUpdate s obj cname ns objName) cname ns objName
  = Some obj.
Proof.
  unfold ClusterStore.GetClusterNSObjectByName, ClusterStore.AddOrUpdate.
  simpl. by rewrite !lookup_insert_eq.
Qed.

Lemma Get_AddOrUpdate_ne s obj cname ns objName cname' ns' objName' :
  (cname, ns, objName) <> (cname', ns', objName') ->
  ClusterStore.GetClusterNSObjectByName
    (ClusterStore.AddOrUpdate s obj cname ns objName) cname' ns' objName'
  = ClusterStore.GetClusterNSObjectByName s cname' ns' objName'.
Proof.
  intros Hne.
  unfold ClusterStore.GetClusterNSObjectByName, ClusterStore.AddOrUpdate.
  simpl. destruct (decide (cname = cname')) as [<-|Hc].
  - rewrite lookup_insert_eq.
    destruct (decide (ns = ns')) as [<-|Hn].
    + rewrite lookup_insert_eq, lookup_insert_ne by congruence.
      destruct (ClusterStore.ClusterObjectMap s !! cname) as [nsMap|]; simpl;
        [|by rewrite !lookup_empty].
      destruct (nsMap !! ns); simpl; [done | by rewrite lookup_empty].
    + rewrite lookup_insert_ne by done.
      destruct (ClusterStore.ClusterObjectMap s !! cname) as [nsMap|]; simpl;
        [done | by rewrite lookup_empty].
  - by rewrite lookup_insert_ne.
Qed.

Lemma Get_DeleteClusterNSObj_eq s cname ns objName :
  ClusterStore.GetClusterNSObjectByName
    (ClusterStore.DeleteClusterNSObj s cname ns objName) cname ns objName
  = None.
Proof.
  unfold ClusterStore.GetClusterNSObjectByName, ClusterStore.DeleteClusterNSObj.
  destruct (ClusterStore.ClusterObjectMap s !! cname) as [nsMap|] eqn:Ec;
    [|by rewrite Ec].
  destruct (nsMap !! ns) as [objMap|] eqn:En; [|by rewrite Ec, En].
  destruct (objMap !! objName) as [o|] eqn:Eo; [|by rewrite Ec, En].
  simpl. by rewrite !lookup_insert_eq, lookup_delete_eq.
Qed.

Lemma Get_DeleteClusterNSObj_ne s cname ns objName cname' ns' objName' :
  (cname, ns, objName) <> (cname', ns', objName') ->
  ClusterStore.GetClusterNSObjectByName
    (ClusterStore.DeleteClusterNSObj s cname ns objName) cname' ns' objName'
  = ClusterStore.GetClusterNSObjectByName s cname' ns' objName'.
Proof.
  intros Hne.
  unfold ClusterStore.GetClusterNSObjectByName, ClusterStore.DeleteClusterNSObj.
  destruct (ClusterStore.ClusterObjectMap s !! cname) as [nsMap|] eqn:Ec;
    [|done].
  destruct (nsMap !! ns) as [objMap|] eqn:En; [|done].
  destruct (objMap !! objName) as [o|] eqn:Eo; [|done].
  simpl. destruct (decide (cname = cname')) as [<-|Hc].
  - rewrite lookup_insert_eq, Ec.
    destruct (decide (ns = ns')) as [<-|Hn].
    + rewrite lookup_insert_eq, En. apply lookup_delete_ne. congruence.
    + by rewrite lookup_insert_ne.
  - by rewrite lookup_insert_ne.
Qed.

(** Deleting what was never added leaves every entry as it was. *)
Lemma DeleteClusterNSObj_absent s cname ns objName :
  ClusterStore.GetClusterNSObjectByName s cname ns objName = None ->
  ClusterStore.DeleteClusterNSObj s cname ns objName = s.
Proof.
  unfold ClusterStore.GetClusterNSObjectByName, ClusterStore.DeleteClusterNSObj.
  destruct (ClusterStore.ClusterObjectMap s !! cname) as [nsMap|]; [|done].
  destruct (nsMap !! ns) as [objMap|]; [|done].
  by intros ->.
Qed.

End ClusterStoreFacts.

(** What the two calls of the ingress store do, one after the other: the
    entry is deleted under (object name, namespace, cluster of the
    metadata), and added under (cname, namespace, object name). *)
Lemma DeleteFromIngressStore_after_add s m cname :
  ~ (IngressHostMeta.ObjName m = cname
     /\ IngressHostMeta.Cluster m = IngressHostMeta.ObjName m) ->
  exists s',
    Ingestion.DeleteFromIngressStore
      (Some (Ingestion.AddOrUpdateIngressStore s m cname)) m cname = Some s'
    /\ ClusterStore.GetClusterNSObjectByName s' cname
         (IngressHostMeta.Namespace m) (IngressHostMeta.ObjName m) = Some m.
Proof.
  intros Hne. eexists. split; [reflexivity|].
  unfold Ingestion.AddOrUpdateIngressStore.
  rewrite Get_DeleteClusterNSObj_ne.
  - apply Get_AddOrUpdate_eq.
  - intros [= H1 H2]. apply Hne. split; congruence.
Qed.

(** The route store deletes under the triple it adds under. *)
Lemma DeleteFromRouteStore_after_add
  RouteGetIPAddr PassthroughRoute DefaultHTTPSHealthMonitorPort ProtocolTCP
  s route cname :
  exists s',
    Ingestion.DeleteFromRouteStore
      (Some (Ingestion.AddOrUpdateRouteStore RouteGetIPAddr PassthroughRoute
               DefaultHTTPSHealthMonitorPort ProtocolTCP s route cname))
      route cname = Some s'
    /\ ClusterStore.GetClusterNSObjectByName s' cname
         (Routev1.Namespace route) (Routev1.Name route) = None.
Proof.
  eexists. split; [reflexivity|]. apply Get_DeleteClusterNSObj_eq.
Qed.

(** C4 fails on the code. The metadata [ihm_web], of cluster [c1], is added
    to the empty store under [c1] and deleted right after: the entry under
    ([c1], [default], [web/a.example]) is still there, because
    [DeleteFromIngressStore] hands the object name where the cluster name
    goes and the cluster name where the object name goes. *)
Theorem DeleteFromIngressStore_leaves_added_entry :
  exists s',
    Ingestion.DeleteFromIngressStore
      (Some (Ingestion.AddOrUpdateIngressStore (ClusterStore.mk ∅)
               ihm_web "c1"))
      ihm_web "c1" = Some s'
    /\ ClusterStore.GetClusterNSObjectByName s' "c1"
         (IngressHostMeta.Namespace ihm_web) (IngressHostMeta.ObjName ihm_web)
       = Some ihm_web.
Proof.
  apply DeleteFromIngressStore_after_add. intros [H _]. discriminate H.
Qed.

(** ** C7: an object of a cluster that is not applicable is rejected *)

(** C7. An ingress host or a route whose cluster is not among the
    applicable clusters of the global filter is rejected by [ApplyFilter],
    whatever the namespace filter, the application filter and the labels
    are; so is every object when the list of applicable clusters is
    empty. *)
Theorem ApplyFilter_rejects_other_clusters (o : MetaObject)
  (gf : GlobalFilter.t) :
  (K8sobjects.GetCluster o ∉ GlobalFilter.ApplicableClusters gf ->
   K8sobjects.ApplyFilter o gf = false)
  /\ (GlobalFilter.ApplicableClusters gf = [] ->
      K8sobjects.ApplyFilter o gf = false).
Proof.
  assert (H : K8sobjects.GetCluster o ∉ GlobalFilter.ApplicableClusters gf ->
              K8sobjects.ApplyFilter o gf = false).
  { intros Hout. apply PresentInList_false in Hout.
    destruct o as [ihm|route]; simpl in *.
    - unfold IngressHostMeta.ApplyFilter.
      unfold IngressHostMeta.GetCluster in Hout. by rewrite Hout.
    - unfold RouteMeta.ApplyFilter.
      unfold RouteMeta.GetCluster in Hout. by rewrite Hout. }
  split; [exact H|].
  intros Hnil. apply H. rewrite Hnil. apply not_elem_of_nil.
Qed.

Lemma ApplyFilter_rejects_other_clusters_witness :
  K8sobjects.ApplyFilter (IngressHostObj ihm_web) gf_only_c2 = false
  /\ K8sobjects.ApplyFilter (RouteObj route_plain) gf_no_cluster = false.
Proof.
  destruct (ApplyFilter_rejects_other_clusters (IngressHostObj ihm_web)
              gf_only_c2) as [Hout _].
  destruct (ApplyFilter_rejects_other_clusters (RouteObj route_plain)
              gf_no_cluster) as [_ Hnil].
  split.
  - apply Hout. simpl. intros Hin.
    apply list_elem_of_singleton in Hin. discriminate Hin.
  - apply Hnil. reflexivity.
Defined.

(** The cluster is what rejects the example object: with its cluster
    added to the applicable ones, the same filter accepts it. *)
Example ApplyFilter_accepts_applicable_cluster :
  IngressHostMeta.ApplyFilter ihm_web
    (GlobalFilter.mk (GlobalFilter.AppFilter gf_only_c2)
       (GlobalFilter.NSFilter gf_only_c2) [] ["c2"; "c1"] 0) = true.
Proof. vm_compute. reflexivity. Qed.

(** ** C8: port and protocol *)

(** C8. [GetPort] and [GetProtocol] give an error exactly when the object
    is not a passthrough route. On an ingress host and on a route that is
    not passthrough they give the zero value and an error; on a passthrough
    route they give the stored port and protocol and no error. *)
Theorem GetPort_GetProtocol_error_iff (o : MetaObject) :
  (is_Some (snd (K8sobjects.GetPort o)) <-> K8sobjects.IsPassthrough o = false)
  /\ (is_Some (snd (K8sobjects.GetProtocol o))
      <-> K8sobjects.IsPassthrough o = false)
  /\ (forall ing, o = IngressHostObj ing ->
      K8sobjects.IsPassthrough o = false
      /\ fst (K8sobjects.GetPort o) = 0
      /\ fst (K8sobjects.GetProtocol o) = "")
  /\ (forall route, o = RouteObj route -> RouteMeta.Passthrough route = false ->
      fst (K8sobjects.GetPort o) = 0 /\ fst (K8sobjects.GetProtocol o) = "")
  /\ (forall route, o = RouteObj route -> RouteMeta.Passthrough route = true ->
      K8sobjects.GetPort o = (RouteMeta.Port route, None)
      /\ K8sobjects.GetProtocol o = (RouteMeta.Protocol route, None)).
Proof.
  split; [|split; [|split; [|split]]].
  - destruct o as [ing|route]; simpl; [by split; [|eexists]|].
    unfold RouteMeta.GetPort, RouteMeta.IsPassthrough.
    destruct (RouteMeta.Passthrough route); simpl.
    + split; [intros [x Hx]; discriminate Hx | discriminate].
    + split; [done | by eexists].
  - destruct o as [ing|route]; simpl; [by split; [|eexists]|].
    unfold RouteMeta.GetProtocol, RouteMeta.IsPassthrough.
    destruct (RouteMeta.Passthrough route); simpl.
    + split; [intros [x Hx]; discriminate Hx | discriminate].
    + split; [done | by eexists].
  - by intros ing ->.
  - intros route -> Hp. simpl.
    unfold RouteMeta.GetPort, RouteMeta.GetProtocol. by rewrite Hp.
  - intros route -> Hp. simpl.
    unfold RouteMeta.GetPort, RouteMeta.GetProtocol. by rewrite Hp.
Qed.

Lemma GetPort_GetProtocol_error_iff_witness :
  K8sobjects.GetPort (RouteObj route_passthrough) = (443, None)
  /\ K8sobjects.GetProtocol (RouteObj route_passthrough) = ("TCP", None)
  /\ is_Some (snd (K8sobjects.GetPort (RouteObj route_plain)))
  /\ is_Some (snd (K8sobjects.GetProtocol (IngressHostObj ihm_web))).
Proof.
  destruct (GetPort_GetProtocol_error_iff (RouteObj route_passthrough))
    as (_ & _ & _ & _ & Hpass).
  destruct (Hpass route_passthrough eq_refl eq_refl) as [Hport Hproto].
  destruct (GetPort_GetProtocol_error_iff (RouteObj route_plain))
    as (Hplain & _).
  destruct (GetPort_GetProtocol_error_iff (IngressHostObj ihm_web))
    as (_ & Hing & _).
  split; [exact Hport|]. split; [exact Hproto|].
  split; [apply Hplain | apply Hing]; reflexivity.
Defined.

(** A route built by [GetRouteMeta] from a passthrough route is a
    passthrough route metadata, with the default port and protocol. *)
Lemma GetRouteMeta_passthrough RouteGetIPAddr PassthroughRoute
  DefaultHTTPSHealthMonitorPort ProtocolTCP route cname tls :
  Routev1.TLS (Routev1.Spec route) = Some tls ->
  Routev1.Termination tls = PassthroughRoute ->
  let m := GetRouteMeta RouteGetIPAddr PassthroughRoute
             DefaultHTTPSHealthMonitorPort ProtocolTCP route cname in
  RouteMeta.GetPort m = (DefaultHTTPSHealthMonitorPort, None)
  /\ RouteMeta.GetProtocol m = (ProtocolTCP, None)
  /\ is_Some (snd (RouteMeta.GetPaths m)).
Proof.
  intros Htls Hterm. unfold GetRouteMeta.
  destruct (RouteGetIPAddr route) as [ipAddr ok].
  rewrite Htls, Hterm, String.eqb_refl. simpl.
  repeat split. by eexists.
Qed.

(** ** C9: the host map *)

Lemma runHostMapOps_never_updated ops key hostMap :
  hostMap !! key = None ->
  Forall (fun op => ~ updates_key key op) ops ->
  runHostMapOps ops hostMap !! key = None.
Proof.
  unfold runHostMapOps. intros Hnone Hops. revert hostMap Hnone.
  induction Hops as [|op ops Hop _ IH]; intros hostMap Hnone; simpl; [done|].
  apply IH. destruct op as [ing k|ing k]; simpl in *.
  - unfold IngressHostMeta.UpdateHostMap. by rewrite lookup_insert_ne.
  - unfold IngressHostMeta.DeleteMapByKey.
    destruct (decide (k = key)) as [->|Hk].
    + apply lookup_delete_eq.
    + by rewrite lookup_delete_ne.
Qed.

(** C9. On the host map as it is first made and then written by any run of
    [UpdateHostMap] and [DeleteMapByKey] calls, none of them an
    [UpdateHostMap] of [key], [GetHostnameFromHostMap key] is the empty
    string -- a string, not an error. And on any host map, after
    [UpdateHostMap key] then [DeleteMapByKey key], it is the empty string
    again. *)
Theorem GetHostnameFromHostMap_empty (key : string)
  (ing ing' ing'' : IngressHostMeta.t) :
  (forall ops,
     Forall (fun op => ~ updates_key key op) ops ->
     IngressHostMeta.GetHostnameFromHostMap ing key
       (runHostMapOps ops newHostMap) = "")
  /\ (forall hostMap,
        IngressHostMeta.GetHostnameFromHostMap ing key
          (IngressHostMeta.DeleteMapByKey ing' key
             (IngressHostMeta.UpdateHostMap ing'' key hostMap)) = "").
Proof.
  split.
  - intros ops Hops. unfold IngressHostMeta.GetHostnameFromHostMap.
    rewrite runHostMapOps_never_updated; [done | apply lookup_empty | done].
  - intros hostMap.
    unfold IngressHostMeta.GetHostnameFromHostMap,
      IngressHostMeta.DeleteMapByKey.
    by rewrite lookup_delete_eq.
Qed.

Lemma GetHostnameFromHostMap_empty_witness :
  IngressHostMeta.GetHostnameFromHostMap ihm_web "c1/default/web/b.example"
    (runHostMapOps
       [OpUpdateHostMap ihm_web "c1/default/web/a.example";
        OpDeleteMapByKey ihm_web "c1/default/web/b.example"] newHostMap) = ""
  /\ IngressHostMeta.GetHostnameFromHostMap ihm_web "c1/default/web/a.example"
       (runHostMapOps [OpUpdateHostMap ihm_web "c1/default/web/a.example"]
          newHostMap) = "a.example".
Proof.
  destruct (GetHostnameFromHostMap_empty "c1/default/web/b.example"
              ihm_web ihm_web ihm_web) as [Hnever _].
  split; [|vm_compute; reflexivity].
  apply Hnever. constructor.
  - simpl. intros Heq. discriminate Heq.
  - constructor; [|constructor]. simpl. intros Hfalse. exact Hfalse.
Defined.

(** The route host map behaves the same. *)
Lemma RouteMeta_GetHostnameFromHostMap_empty (key : string)
  (route route' route'' : RouteMeta.t) hostMap :
  RouteMeta.GetHostnameFromHostMap route key newHostMap = ""
  /\ RouteMeta.GetHostnameFromHostMap route key
       (RouteMeta.DeleteMapByKey route' key
          (RouteMeta.UpdateHostMap route'' key hostMap)) = "".
Proof.
  unfold RouteMeta.GetHostnameFromHostMap, RouteMeta.DeleteMapByKey.
  by rewrite lookup_delete_eq.
Qed.

(** ** C10: the retry layer *)

(** C10. [SyncFromRetryLayer] returns nil for every key, whatever the key
    is made of and whatever publishing it to the queue of the graph layer
    does: the queues are left as the publication leaves them and nothing
    of its outcome reaches the caller. *)
Theorem SyncFromRetryLayer_returns_nil (World Queue : Type)
  (ExtractNamespaceObjectName : string -> string * string)
  (GraphLayer : string) (GetQueueByName : string -> World -> Queue)
  (PublishKeyToRestLayer :
     string -> string -> string -> Queue -> World -> World)
  (key : string) (w : World) :
  let r := Retry.SyncFromRetryLayer World Queue ExtractNamespaceObjectName
             GraphLayer GetQueueByName PublishKeyToRestLayer key w in
  fst r = None
  /\ snd r = PublishKeyToRestLayer
               (fst (ExtractNamespaceObjectName key))
               (snd (ExtractNamespaceObjectName key))
               "retry" (GetQueueByName GraphLayer w) w.
Proof.
  unfold Retry.SyncFromRetryLayer.
  by destruct (ExtractNamespaceObjectName key) as [tenant gsName].
Qed.

(** * Further properties of the code *)

(** ** Membership and label matching *)

(** [PresentInList] decides membership in the list. *)
Theorem PresentInList_decides_membership (key : string)
  (strList : list string) :
  (PresentInList key strList = true <-> key ∈ strList)
  /\ (PresentInList key strList = false <-> key ∉ strList).
Proof.
  split; [apply PresentInList_elem_of | apply PresentInList_false].
Qed.

Lemma applyAppFilter_true labels af :
  applyAppFilter labels af = true <-> matches_app labels af.
Proof.
  unfold applyAppFilter, matches_app. rewrite existsb_exists. split.
  - intros ([k v] & Hin & Heq). simpl in Heq.
    apply andb_true_iff in Heq as [Hk Hv].
    apply String.eqb_eq in Hk, Hv. subst.
    apply list_elem_of_In in Hin. by apply elem_of_map_to_list in Hin.
  - intros Hl. exists (AppFilter.Key af, AppFilter.Value af). split.
    + apply list_elem_of_In. by apply elem_of_map_to_list.
    + simpl. by rewrite !String.eqb_refl.
Qed.

(** [applyAppFilter] answers true exactly when the label map holds the key
    of the application filter with the value of the application filter,
    whatever else the map holds and in whatever order it is iterated. *)
Theorem applyAppFilter_iff_lookup (labels : gmap string string)
  (af : AppFilter.t) :
  applyAppFilter labels af = true
  <-> labels !! AppFilter.Key af = Some (AppFilter.Value af).
Proof. apply applyAppFilter_true. Qed.

(** ** The decision of [ApplyFilter] *)

Lemma applyAppFilter_false labels af :
  applyAppFilter labels af = false <-> ~ matches_app labels af.
Proof.
  rewrite <- applyAppFilter_true.
  destruct (applyAppFilter labels af); split; congruence.
Qed.

Lemma ApplyFilter_selects_aux gf cluster namespace labels :
  (if negb (PresentInList cluster (GlobalFilter.ApplicableClusters gf)) then
     false
   else
     match GlobalFilter.NSFilter gf with
     | Some nsFilter =>
         match
           match NamespaceFilter.SelectedNS nsFilter with
           | Some selectedNS => selectedNS !! cluster
           | None => None
           end
         with
         | None => false
         | Some nsList =>
             if PresentInList namespace nsList then
               match GlobalFilter.AppFilter gf with
               | None => true
               | Some appFilter =>
                   if applyAppFilter labels appFilter then true else false
               end
             else false
         end
     | None =>
         match GlobalFilter.AppFilter gf with
         | None => false
         | Some appFilter =>
             if negb (applyAppFilter labels appFilter) then false else true
         end
     end) = true
  <-> selects gf cluster namespace labels.
Proof.
  unfold selects, namespace_selected.
  destruct (PresentInList cluster (GlobalFilter.ApplicableClusters gf)) eqn:Ec;
    simpl.
  2:{ apply PresentInList_false in Ec. split; [discriminate | tauto]. }
  apply PresentInList_elem_of in Ec.
  destruct (GlobalFilter.NSFilter gf) as [nsf|].
  - destruct (NamespaceFilter.SelectedNS nsf) as [sel|].
    2:{ split; [discriminate|]. intros (_ & (s & l & Hs & _) & _).
        discriminate Hs. }
    destruct (sel !! cluster) as [nsList|] eqn:El.
    2:{ split; [discriminate|]. intros (_ & (s & l & [= <-] & Hl & _) & _).
        congruence. }
    destruct (PresentInList namespace nsList) eqn:En.
    2:{ apply PresentInList_false in En. split; [discriminate|].
        intros (_ & (s & l & [= <-] & Hl & Hin) & _).
        rewrite El in Hl. injection Hl as <-. done. }
    apply PresentInList_elem_of in En.
    destruct (GlobalFilter.AppFilter gf) as [af|].
    + destruct (applyAppFilter labels af) eqn:Ea.
      * apply applyAppFilter_true in Ea. split; [|done]. intros _.
        split; [done|]. split; [by exists sel, nsList|].
        by intros ? [= <-].
      * apply applyAppFilter_false in Ea. split; [discriminate|].
        intros (_ & _ & Haf). destruct Ea. by apply Haf.
    + split; [|done]. intros _. split; [done|].
      split; [by exists sel, nsList | intros ? [=]].
  - destruct (GlobalFilter.AppFilter gf) as [af|].
    + destruct (applyAppFilter labels af) eqn:Ea; simpl.
      * apply applyAppFilter_true in Ea. split; [|done]. intros _.
        split; [done|]. by exists af.
      * apply applyAppFilter_false in Ea. split; [discriminate|].
        intros (_ & af' & [= <-] & Hm). done.
    + split; [discriminate|]. intros (_ & af & [=] & _).
Qed.

Lemma ApplyFilter_selects o gf :
  K8sobjects.ApplyFilter o gf = true
  <-> selects gf (K8sobjects.GetCluster o) (objNamespace o) (objLabels o).
Proof. destruct o; apply ApplyFilter_selects_aux. Qed.

(** [ApplyFilter], on an ingress host and on a route alike, accepts an
    object exactly when its cluster is applicable and, with a namespace
    filter, its namespace is listed for its cluster and its labels match
    the application filter if there is one; without a namespace filter,
    there is an application filter and its labels match it. With neither
    filter every object is rejected. *)
Theorem ApplyFilter_accepts_iff (o : MetaObject) (gf : GlobalFilter.t) :
  (K8sobjects.ApplyFilter o gf = true
   <-> selects gf (K8sobjects.GetCluster o) (objNamespace o) (objLabels o))
  /\ (GlobalFilter.NSFilter gf = None -> GlobalFilter.AppFilter gf = None ->
      K8sobjects.ApplyFilter o gf = false).
Proof.
  split; [apply ApplyFilter_selects|].
  intros Hns Happ.
  destruct (K8sobjects.ApplyFilter o gf) eqn:E; [|done].
  apply ApplyFilter_selects in E as [_ E]. rewrite Hns in E.
  destruct E as (af & Haf & _). congruence.
Qed.

Lemma ApplyFilter_accepts_iff_witness :
  K8sobjects.ApplyFilter (IngressHostObj ihm_web) GetNewGlobalFilter = false
  /\ K8sobjects.ApplyFilter (RouteObj route_plain)
       (GlobalFilter.mk (GlobalFilter.AppFilter gf_only_c2)
          (GlobalFilter.NSFilter gf_only_c2) [] ["c1"] 0) = true.
Proof.
  destruct (ApplyFilter_accepts_iff (IngressHostObj ihm_web)
              GetNewGlobalFilter) as [_ Hnone].
  destruct (ApplyFilter_accepts_iff (RouteObj route_plain)
              (GlobalFilter.mk (GlobalFilter.AppFilter gf_only_c2)
                 (GlobalFilter.NSFilter gf_only_c2) [] ["c1"] 0))
    as [Hiff _].
  split; [apply Hnone; reflexivity|].
  apply Hiff. split; [simpl; left|]. simpl. split.
  - eexists _, ["default"]. split; [reflexivity|].
    split; [vm_compute; reflexivity | left].
  - intros af Haf. injection Haf as <-. vm_compute. reflexivity.
Defined.

(** ** The namespace filter and its map of selected namespaces *)

Lemma createNewNSFilter_SelectedNS Hash lbl :
  NamespaceFilter.SelectedNS (createNewNSFilter Hash lbl) = None.
Proof. unfold createNewNSFilter. by destruct (getLabelKeyAndValue lbl). Qed.

Lemma AddToFilter_NSFilter_one Hash gf p :
  size (NamespaceSelector_Label (MatchRulesOf (Spec p))) = 1%nat ->
  GlobalFilter.NSFilter (AddToFilter Hash gf p)
  = Some (createNewNSFilter Hash
            (NamespaceSelector_Label (MatchRulesOf (Spec p)))).
Proof. intros Hsz. unfold AddToFilter. simpl. by rewrite Hsz. Qed.

(** A namespace filter that [AddToFilter] has just built from a policy
    with exactly one namespace label has no map of selected namespaces
    (the map is nil). Until the map is set, [ApplyFilter] rejects every
    object, and [AddNSToNSFilter] panics on the write into the nil map. *)
Theorem AddToFilter_namespace_filter_unready (Hash : string -> Z)
  (gf : GlobalFilter.t) (p : GlobalDeploymentPolicy) (o : MetaObject)
  (cname ns : string) :
  size (NamespaceSelector_Label (MatchRulesOf (Spec p))) = 1%nat ->
  K8sobjects.ApplyFilter o (AddToFilter Hash gf p) = false
  /\ AddNSToNSFilter (AddToFilter Hash gf p) cname ns = None.
Proof.
  intros Hsz. pose proof (AddToFilter_NSFilter_one Hash gf p Hsz) as Hns.
  split.
  - destruct (K8sobjects.ApplyFilter o (AddToFilter Hash gf p)) eqn:E; [|done].
    apply ApplyFilter_selects in E as [_ E]. rewrite Hns in E.
    destruct E as [(sel & l & Hsel & _) _].
    by rewrite createNewNSFilter_SelectedNS in Hsel.
  - unfold AddNSToNSFilter. rewrite Hns. unfold AddNS.
    by rewrite createNewNSFilter_SelectedNS.
Qed.

Lemma AddToFilter_namespace_filter_unready_witness :
  K8sobjects.ApplyFilter (IngressHostObj ihm_web)
    (AddToFilter fnv1a32 GetNewGlobalFilter gdp_ns_prod) = false
  /\ AddNSToNSFilter (AddToFilter fnv1a32 GetNewGlobalFilter gdp_ns_prod)
       "c1" "default" = None.
Proof.
  apply (AddToFilter_namespace_filter_unready fnv1a32 GetNewGlobalFilter
           gdp_ns_prod (IngressHostObj ihm_web) "c1" "default").
  vm_compute. reflexivity.
Defined.

Lemma AddNS_inserts (nsf : NamespaceFilter.t)
  (sel : gmap string (list string)) (cname ns : string) :
  NamespaceFilter.SelectedNS nsf = Some sel ->
  exists sel',
    let nsf' :=
      NamespaceFilter.mk (NamespaceFilter.Label nsf) (Some sel')
        (NamespaceFilter.Checksum nsf) in
    AddNS nsf cname ns = Some nsf'
    /\ is_Some (sel' !! cname)
    /\ (forall x, x ∈ selected_of sel' cname
                  <-> x = ns \/ x ∈ selected_of sel cname)
    /\ (NoDup (selected_of sel cname) -> NoDup (selected_of sel' cname))
    /\ (forall c, c <> cname -> sel' !! c = sel !! c)
    /\ AddNS nsf' cname ns = Some nsf'.
Proof.
  intros Hsel. destruct nsf as [lbl s ck]. simpl in Hsel. subst s.
  unfold AddNS, selected_of. simpl.
  destruct (sel !! cname) as [nsList|] eqn:El; simpl.
  - destruct (PresentInList ns nsList) eqn:Ep; simpl.
    + exists sel. rewrite El. simpl. rewrite Ep. simpl.
      apply PresentInList_elem_of in Ep.
      split; [done|]. split; [by eexists|]. split.
      { intros x. split; [by right|]. by intros [->|?]. }
      split; [done|]. split; done.
    + apply PresentInList_false in Ep.
      exists (<[cname := nsList ++ [ns]]> sel).
      rewrite lookup_insert_eq. simpl.
      assert (Hin : PresentInList ns (nsList ++ [ns]) = true).
      { apply PresentInList_elem_of, elem_of_app. right. left. }
      rewrite Hin. simpl.
      split; [done|]. split; [by eexists|]. split.
      { intros x. rewrite elem_of_app, list_elem_of_singleton. tauto. }
      split.
      { intros Hnd. apply NoDup_app. split; [done|]. split.
        - intros x Hx Hx'. apply list_elem_of_singleton in Hx'. by subst.
        - apply NoDup_singleton. }
      split; [|done]. intros c Hc. by rewrite lookup_insert_ne.
  - exists (<[cname := [ns]]> sel). rewrite lookup_insert_eq. simpl.
    rewrite String.eqb_refl. simpl.
    split; [done|]. split; [by eexists|]. split.
    { intros x. rewrite list_elem_of_singleton, elem_of_nil. tauto. }
    split; [intros _; apply NoDup_singleton|].
    split; [|done]. intros c Hc. by rewrite lookup_insert_ne.
Qed.

(** On a namespace filter whose map is set, [AddNS] inserts the namespace
    into the list of the cluster as into a set: the list of the cluster
    then holds the namespace and what it held, a list without duplicates
    stays so, the lists of the other clusters, the label and the checksum
    are as before, and adding the same namespace again changes nothing. *)
Theorem AddNS_set_insertion (nsf : NamespaceFilter.t)
  (sel : gmap string (list string)) (cname ns : string) :
  NamespaceFilter.SelectedNS nsf = Some sel ->
  exists sel',
    let nsf' :=
      NamespaceFilter.mk (NamespaceFilter.Label nsf) (Some sel')
        (NamespaceFilter.Checksum nsf) in
    AddNS nsf cname ns = Some nsf'
    /\ is_Some (sel' !! cname)
    /\ (forall x, x ∈ selected_of sel' cname
                  <-> x = ns \/ x ∈ selected_of sel cname)
    /\ (NoDup (selected_of sel cname) -> NoDup (selected_of sel' cname))
    /\ (forall c, c <> cname -> sel' !! c = sel !! c)
    /\ AddNS nsf' cname ns = Some nsf'.
Proof. apply AddNS_inserts. Qed.

Lemma AddNS_set_insertion_witness :
  exists sel',
    AddNS (NamespaceFilter.mk (Label.mk "ns" "prod")
             (Some {["c2" := ["default"]]}) 0) "c2" "shop"
    = Some (NamespaceFilter.mk (Label.mk "ns" "prod") (Some sel') 0)
    /\ (forall x, x ∈ selected_of sel' "c2"
                  <-> x = "shop" \/ x ∈ ["default"]).
Proof.
  destruct (AddNS_set_insertion
              (NamespaceFilter.mk (Label.mk "ns" "prod")
                 (Some {["c2" := ["default"]]}) 0)
              {["c2" := ["default"]]} "c2" "shop" eq_refl)
    as (sel' & Hadd & _ & Hin & _).
  exists sel'. split; [exact Hadd | exact Hin].
Defined.

(** [AddNSToNSFilter] without a namespace filter returns an error and
    leaves the filter as it is. With a namespace filter whose map is set
    it returns no error, and when no application filter is set an object
    of that cluster, if applicable, and of that namespace is accepted by
    [ApplyFilter] from then on. *)
Theorem AddNSToNSFilter_then_ApplyFilter (gf : GlobalFilter.t)
  (cname ns : string) :
  (GlobalFilter.NSFilter gf = None ->
   exists err, AddNSToNSFilter gf cname ns = Some (gf, Some err))
  /\ (forall nsf sel,
        GlobalFilter.NSFilter gf = Some nsf ->
        NamespaceFilter.SelectedNS nsf = Some sel ->
        exists gf',
          AddNSToNSFilter gf cname ns = Some (gf', None)
          /\ GlobalFilter.ApplicableClusters gf'
             = GlobalFilter.ApplicableClusters gf
          /\ GlobalFilter.TrafficSplit gf' = GlobalFilter.TrafficSplit gf
          /\ GlobalFilter.Checksum gf' = GlobalFilter.Checksum gf
          /\ forall o,
               K8sobjects.GetCluster o = cname -> objNamespace o = ns ->
               cname ∈ GlobalFilter.ApplicableClusters gf ->
               GlobalFilter.AppFilter gf = None ->
               K8sobjects.ApplyFilter o gf' = true).
Proof.
  split.
  - intros Hns. unfold AddNSToNSFilter. rewrite Hns. by eexists.
  - intros nsf sel Hns Hsel. unfold AddNSToNSFilter. rewrite Hns.
    destruct (AddNS_inserts nsf sel cname ns Hsel)
      as (sel' & Hadd & [l Hl] & Hin & _).
    simpl in Hadd. rewrite Hadd. eexists. split; [reflexivity|]. simpl.
    repeat split. intros o Hc Hn Happl Hnoapp.
    apply ApplyFilter_selects. rewrite Hc, Hn. split; [exact Happl|].
    simpl. split.
    + exists sel', l. split; [done|]. split; [done|].
      specialize (Hin ns). unfold selected_of in Hin. rewrite Hl in Hin.
      simpl in Hin. apply Hin. by left.
    + intros af Haf. congruence.
Qed.

Lemma AddNSToNSFilter_then_ApplyFilter_witness :
  (exists err,
     AddNSToNSFilter GetNewGlobalFilter "c1" "default"
     = Some (GetNewGlobalFilter, Some err))
  /\ exists gf',
       AddNSToNSFilter gf_ns_ready "c1" "default" = Some (gf', None)
       /\ K8sobjects.ApplyFilter (IngressHostObj ihm_web) gf' = true.
Proof.
  destruct (AddNSToNSFilter_then_ApplyFilter GetNewGlobalFilter
              "c1" "default") as [Hnone _].
  destruct (AddNSToNSFilter_then_ApplyFilter gf_ns_ready "c1" "default")
    as [_ Hsome].
  split; [apply Hnone; reflexivity|].
  destruct (Hsome _ _ eq_refl eq_refl) as (gf' & Hadd & _ & _ & _ & Hacc).
  exists gf'. split; [exact Hadd|].
  apply Hacc; [reflexivity | reflexivity | simpl; left | reflexivity].
Defined.

(** ** Traffic weights *)

Lemma GetTrafficWeightLoop_absent ts cname :
  cname ∉ ClusterTraffic.ClusterName <$> ts ->
  GetTrafficWeightLoop ts cname
  = (0, Some ("no weight available for cluster " +:+ cname)).
Proof.
  induction ts as [|t ts IH]; simpl; [done|].
  rewrite ?fmap_cons, not_elem_of_cons. intros [Hne Hts].
  destruct (String.eqb_spec (ClusterTraffic.ClusterName t) cname);
    [congruence | by apply IH].
Qed.

Lemma GetTrafficWeightLoop_app_absent l1 l2 cname :
  cname ∉ ClusterTraffic.ClusterName <$> l1 ->
  GetTrafficWeightLoop (l1 ++ l2) cname = GetTrafficWeightLoop l2 cname.
Proof.
  induction l1 as [|t l1 IH]; simpl; [done|].
  rewrite ?fmap_cons, not_elem_of_cons. intros [Hne Hts].
  destruct (String.eqb_spec (ClusterTraffic.ClusterName t) cname);
    [congruence | by apply IH].
Qed.

Lemma GetTrafficWeightLoop_app_found l1 l2 cname w :
  GetTrafficWeightLoop l1 cname = (w, None) ->
  GetTrafficWeightLoop (l1 ++ l2) cname = (w, None).
Proof.
  induction l1 as [|t l1 IH]; simpl; [discriminate|].
  destruct (String.eqb (ClusterTraffic.ClusterName t) cname); [done | exact IH].
Qed.

Lemma GetTrafficWeightLoop_first pre t post :
  ClusterTraffic.ClusterName t ∉ ClusterTraffic.ClusterName <$> pre ->
  GetTrafficWeightLoop (pre ++ t :: post) (ClusterTraffic.ClusterName t)
  = (ClusterTraffic.Weight t, None).
Proof.
  intros Hpre. rewrite GetTrafficWeightLoop_app_absent by done.
  simpl. by rewrite String.eqb_refl.
Qed.

(** [GetTrafficWeight] returns the weight of the first entry of the
    traffic split for the cluster, with no error, and the zero weight with
    an error when the traffic split has no entry for the cluster. The
    namespace it is given plays no part. *)
Theorem GetTrafficWeight_first_entry (gf : GlobalFilter.t)
  (ns cname : string) :
  (cname ∉ ClusterTraffic.ClusterName <$> GlobalFilter.TrafficSplit gf ->
   GetTrafficWeight gf ns cname
   = (0, Some ("no weight available for cluster " +:+ cname)))
  /\ (forall pre t post,
        GlobalFilter.TrafficSplit gf = pre ++ t :: post ->
        ClusterTraffic.ClusterName t = cname ->
        cname ∉ ClusterTraffic.ClusterName <$> pre ->
        GetTrafficWeight gf ns cname = (ClusterTraffic.Weight t, None))
  /\ (snd (GetTrafficWeight gf ns cname) = None
      <-> cname ∈ ClusterTraffic.ClusterName <$> GlobalFilter.TrafficSplit gf).
Proof.
  unfold GetTrafficWeight. split; [apply GetTrafficWeightLoop_absent|]. split.
  - intros pre t post -> <- Hpre. by apply GetTrafficWeightLoop_first.
  - induction (GlobalFilter.TrafficSplit gf) as [|t ts IH]; simpl.
    + rewrite elem_of_nil. split; [discriminate | done].
    + rewrite elem_of_cons.
      destruct (String.eqb_spec (ClusterTraffic.ClusterName t) cname);
        simpl; [by split; [left|]|].
      rewrite IH. split; [by right|]. intros [?|?]; [congruence | done].
Qed.

Lemma GetTrafficWeight_first_entry_witness :
  GetTrafficWeight gf_c1_c2 "default" "c2" = (2, None)
  /\ GetTrafficWeight gf_c1_c2 "default" "c3"
     = (0, Some "no weight available for cluster c3").
Proof.
  destruct (GetTrafficWeight_first_entry gf_c1_c2 "default" "c2")
    as (_ & Hfirst & _).
  destruct (GetTrafficWeight_first_entry gf_c1_c2 "default" "c3")
    as (Habs & _).
  split.
  - apply (Hfirst [ClusterTraffic.mk "c1" 8] (ClusterTraffic.mk "c2" 2) []);
      [reflexivity | reflexivity |].
    simpl. intros Hin. apply list_elem_of_singleton in Hin. discriminate Hin.
  - apply Habs. simpl. intros Hin.
    apply elem_of_cons in Hin as [Hin|Hin]; [discriminate Hin|].
    apply list_elem_of_singleton in Hin. discriminate Hin.
Defined.

Lemma AddToFilter_TrafficSplit Hash gf p :
  GlobalFilter.TrafficSplit (AddToFilter Hash gf p)
  = GlobalFilter.TrafficSplit gf ++ (toClusterTraffic <$> TrafficSplit (Spec p)).
Proof. unfold AddToFilter. simpl. apply appendTrafficSplit_app. Qed.

(** [AddToFilter] puts the entries of the policy after those the filter
    holds, and [GetTrafficWeight] reads the first entry of a cluster: a
    weight the filter already gives for a cluster is still the one it
    gives after [AddToFilter], whatever the policy says; for a cluster the
    filter had no weight for, it is the first weight of the policy for that
    cluster, as an [int32]. *)
Theorem GetTrafficWeight_after_AddToFilter (Hash : string -> Z)
  (gf : GlobalFilter.t) (p : GlobalDeploymentPolicy) (ns cname : string) :
  (forall w, GetTrafficWeight gf ns cname = (w, None) ->
             GetTrafficWeight (AddToFilter Hash gf p) ns cname = (w, None))
  /\ (cname ∉ ClusterTraffic.ClusterName <$> GlobalFilter.TrafficSplit gf ->
      forall pre e post,
        TrafficSplit (Spec p) = pre ++ e :: post ->
        Cluster e = cname -> cname ∉ Cluster <$> pre ->
        GetTrafficWeight (AddToFilter Hash gf p) ns cname
        = (int32 (Weight e), None)).
Proof.
  unfold GetTrafficWeight. rewrite AddToFilter_TrafficSplit. split.
  - intros w. apply GetTrafficWeightLoop_app_found.
  - intros Habs pre e post Hp <- Hpre.
    rewrite GetTrafficWeightLoop_app_absent by done.
    rewrite Hp, fmap_app, fmap_cons.
    apply (GetTrafficWeightLoop_first (toClusterTraffic <$> pre)
             (toClusterTraffic e)).
    rewrite <- list_fmap_compose. exact Hpre.
Qed.

Lemma GetTrafficWeight_after_AddToFilter_witness :
  GetTrafficWeight (AddToFilter fnv1a32 gf_holding_c1 gdp_c1_c2) "default" "c1"
  = (5, None)
  /\ GetTrafficWeight (AddToFilter fnv1a32 gf_holding_c1 gdp_c1_c2)
       "default" "c2" = (2, None).
Proof.
  destruct (GetTrafficWeight_after_AddToFilter fnv1a32 gf_holding_c1
              gdp_c1_c2 "default" "c1") as [Hkept _].
  destruct (GetTrafficWeight_after_AddToFilter fnv1a32 gf_holding_c1
              gdp_c1_c2 "default" "c2") as [_ Hnew].
  split; [apply Hkept; reflexivity|].
  change 2 with (int32 (Weight (mkTrafficSplitElem "c2" 2))).
  apply (Hnew) with (pre := [mkTrafficSplitElem "c1" 8]) (post := []).
  - simpl. intros Hin. apply list_elem_of_singleton in Hin. discriminate Hin.
  - reflexivity.
  - reflexivity.
  - simpl. intros Hin. apply list_elem_of_singleton in Hin. discriminate Hin.
Defined.

(** ** When [isTrafficWeightChanged] answers false *)

Lemma scanNewMembers_inv om news :
  forall found found',
    scanNewMembers om news found = (false, found') ->
    (forall nm, nm ∈ news -> Cluster nm = Cluster om ->
                Weight nm = Weight om)
    /\ (found' = true -> found = true \/ Cluster om ∈ Cluster <$> news).
Proof.
  induction news as [|nm rest IH]; intros found found'; simpl.
  - intros [= <-]. split; [intros nm Hnm; inversion Hnm | by left].
  - destruct (String.eqb_spec (Cluster om) (Cluster nm)) as [Heq|Hne].
    + destruct (Z.eqb_spec (Weight om) (Weight nm)) as [Hw|Hw]; simpl;
        [|discriminate].
      intros H. apply IH in H as [Hall _]. split.
      * intros n Hn Hc. apply elem_of_cons in Hn as [->|Hn]; [done|].
        by apply Hall.
      * intros _. right. rewrite ?fmap_cons. rewrite Heq. left.
    + intros H. apply IH in H as [Hall Hf]. split.
      * intros n Hn Hc. apply elem_of_cons in Hn as [->|Hn]; [congruence|].
        by apply Hall.
      * intros Ht. destruct (Hf Ht) as [?|?]; [by left|].
        right. rewrite ?fmap_cons. by right.
Qed.

Lemma scanNewMembers_kept om news :
  scanNewMembers om news false = (false, true) <-> member_kept news om.
Proof.
  unfold member_kept. split.
  - intros H. apply scanNewMembers_inv in H as [Hall Hf]. split; [|done].
    destruct (Hf eq_refl) as [?|?]; [discriminate | done].
  - intros [Hin Hall]. apply scanNewMembers_agree; [done | by right].
Qed.

Lemma scanNewMembers_returned om news found found' :
  scanNewMembers om news found = (true, found') -> found' = true.
Proof.
  revert found. induction news as [|nm rest IH]; intros found; simpl;
    [discriminate|].
  destruct (String.eqb (Cluster om) (Cluster nm)); [|apply IH].
  destruct (negb _); [by intros [= <-] | apply IH].
Qed.

Lemma scanOldMembers_false olds news :
  scanOldMembers olds news = false <-> Forall (member_kept news) olds.
Proof.
  induction olds as [|o rest IH]; simpl.
  - split; [constructor | done].
  - rewrite Forall_cons, <- IH, <- scanNewMembers_kept.
    destruct (scanNewMembers o news false) as [[|] [|]]; simpl.
    + split; [discriminate | intros [[=] _]].
    + split; [discriminate | intros [[=] _]].
    + split; [by intros -> | by intros [_ ->]].
    + split; [discriminate | intros [[=] _]].
Qed.

Lemma isTrafficWeightChanged_false new old :
  isTrafficWeightChanged new old = false
  <-> length (TrafficSplit (Spec old)) = length (TrafficSplit (Spec new))
      /\ Forall (member_kept (TrafficSplit (Spec new)))
           (TrafficSplit (Spec old)).
Proof.
  unfold isTrafficWeightChanged.
  destruct (Nat.eqb_spec (length (TrafficSplit (Spec old)))
              (length (TrafficSplit (Spec new)))) as [Hl|Hl]; simpl.
  - rewrite scanOldMembers_false. tauto.
  - split; [discriminate | tauto].
Qed.

(** [isTrafficWeightChanged] answers false exactly when the two traffic
    splits have the same length and every member of the old one has its
    cluster in the new one, with its weight wherever the new one lists that
    cluster. In every other case it answers true. *)
Theorem isTrafficWeightChanged_false_iff (new old : GlobalDeploymentPolicy) :
  isTrafficWeightChanged new old = false
  <-> length (TrafficSplit (Spec old)) = length (TrafficSplit (Spec new))
      /\ forall om, om ∈ TrafficSplit (Spec old) ->
           Cluster om ∈ Cluster <$> TrafficSplit (Spec new)
           /\ forall nm, nm ∈ TrafficSplit (Spec new) ->
                Cluster nm = Cluster om -> Weight nm = Weight om.
Proof.
  rewrite isTrafficWeightChanged_false, Forall_forall. reflexivity.
Qed.

(** Compared with itself, a policy has its traffic weights unchanged
    exactly when it lists no cluster with two different weights. *)
Theorem isTrafficWeightChanged_same_document (p : GlobalDeploymentPolicy) :
  isTrafficWeightChanged p p = false
  <-> one_weight_per_cluster (TrafficSplit (Spec p)).
Proof.
  rewrite isTrafficWeightChanged_false, Forall_forall.
  unfold member_kept, one_weight_per_cluster. split.
  - intros [_ H] a b Ha Hb Hc. by apply (H b Hb).
  - intros H. split; [done|]. intros om Hom. split.
    + by apply list_elem_of_fmap_2.
    + intros nm Hnm Hc. by apply H.
Qed.

(** ** What [UpdateGlobalFilter] settles, and what it misses *)

(** After [UpdateGlobalFilter old new] the live filter holds the checksum
    of the candidate built from [new], whichever branch was taken; a
    second update to the same [new], from any [old'], finds nothing to do
    and leaves the filter as it is. *)
Theorem UpdateGlobalFilter_settles (Hash : string -> Z) (gf : GlobalFilter.t)
  (old old' new : GlobalDeploymentPolicy) :
  let gf1 := fst (UpdateGlobalFilter Hash gf old new) in
  GlobalFilter.Checksum gf1
  = GlobalFilter.Checksum (AddToFilter Hash GetNewGlobalFilter new)
  /\ UpdateGlobalFilter Hash gf1 old' new = (gf1, (false, false)).
Proof.
  unfold UpdateGlobalFilter.
  destruct (Z.eqb_spec (GlobalFilter.Checksum gf)
              (GlobalFilter.Checksum (AddToFilter Hash GetNewGlobalFilter new)))
    as [Heq|Hne]; simpl.
  - split; [exact Heq|]. by rewrite Heq, Z.eqb_refl.
  - split; [reflexivity|]. by rewrite Z.eqb_refl.
Qed.

Lemma size_empty_ne_1 : Nat.eqb (size (∅ : gmap string string)) 1 = false.
Proof. by rewrite map_size_empty. Qed.

(** The checksum adds the hash of key ++ value for the application filter
    and for the namespace filter alike. A policy that selects by
    application label and a policy that selects by namespace label, with
    the same concatenation of key and value and the same clusters and
    traffic split, have the same checksum: [UpdateGlobalFilter] from the
    one to the other answers (false, false) and keeps the application
    filter, although the candidate has a namespace filter and no
    application filter. *)
Theorem UpdateGlobalFilter_misses_selector_kind (Hash : string -> Z)
  (k v k' v' : string) (clusters : list string)
  (ts : list TrafficSplitElem) :
  k +:+ v = k' +:+ v' ->
  let p1 := gdp_of {[k := v]} ∅ clusters ts in
  let p2 := gdp_of ∅ {[k' := v']} clusters ts in
  let live := AddToFilter Hash GetNewGlobalFilter p1 in
  let candidate := AddToFilter Hash GetNewGlobalFilter p2 in
  UpdateGlobalFilter Hash live p1 p2 = (live, (false, false))
  /\ GlobalFilter.AppFilter live = Some (AppFilter.mk (Label.mk k v))
  /\ GlobalFilter.NSFilter live = None
  /\ GlobalFilter.AppFilter candidate = None
  /\ GlobalFilter.NSFilter candidate
     = Some (NamespaceFilter.mk (Label.mk k' v') None (Hash (k' +:+ v'))).
Proof.
  intros Hkv p1 p2 live candidate.
  assert (Hlive : live =
    ComputeChecksum Hash
      (GlobalFilter.mk (Some (AppFilter.mk (Label.mk k v))) None
         (toClusterTraffic <$> ts) clusters 0)).
  { subst live p1. unfold AddToFilter, gdp_of. simpl.
    rewrite map_size_singleton, size_empty_ne_1. simpl.
    by rewrite getLabelKeyAndValue_singleton, appendTrafficSplit_app. }
  assert (Hcand : candidate =
    ComputeChecksum Hash
      (GlobalFilter.mk None
         (Some (NamespaceFilter.mk (Label.mk k' v') None (Hash (k' +:+ v'))))
         (toClusterTraffic <$> ts) clusters 0)).
  { subst candidate p2. unfold AddToFilter, gdp_of. simpl.
    rewrite map_size_singleton, size_empty_ne_1. simpl.
    unfold createNewNSFilter.
    by rewrite getLabelKeyAndValue_singleton, appendTrafficSplit_app. }
  split; [|by rewrite Hlive, Hcand].
  unfold UpdateGlobalFilter. fold candidate.
  assert (Hck : GlobalFilter.Checksum live = GlobalFilter.Checksum candidate).
  { rewrite Hlive, Hcand. unfold ComputeChecksum, GetChecksum. simpl.
    unfold AppFilter.Key, AppFilter.Value. simpl. by rewrite Hkv. }
  by rewrite Hck, Z.eqb_refl.
Qed.

Lemma UpdateGlobalFilter_misses_selector_kind_witness :
  UpdateGlobalFilter fnv1a32
    (AddToFilter fnv1a32 GetNewGlobalFilter gdp_app_only)
    gdp_app_only gdp_ns_only
  = (AddToFilter fnv1a32 GetNewGlobalFilter gdp_app_only, (false, false))
  /\ GlobalFilter.AppFilter (AddToFilter fnv1a32 GetNewGlobalFilter gdp_ns_only)
     = None.
Proof.
  destruct (UpdateGlobalFilter_misses_selector_kind fnv1a32
              "tier" "web" "tie" "rweb" ["c1"] [mkTrafficSplitElem "c1" 3]
              eq_refl) as (Hupd & _ & _ & Hnone & _).
  split; [exact Hupd | exact Hnone].
Defined.

Lemma fold_add32_replace {A : Type} (f : A -> Z) pre post x y a :
  f x = f y ->
  fold_left (fun acc z => add32 acc (f z)) (pre ++ x :: post) a
  = fold_left (fun acc z => add32 acc (f z)) (pre ++ y :: post) a.
Proof. intros Hf. rewrite !fold_left_app. simpl. by rewrite Hf. Qed.

(** The checksum adds, for each entry of the traffic split, the hash of
    the cluster name followed by the weight in decimal. Two policies that
    differ in one entry of the traffic split only, the two entries giving
    the same text (cluster [c1] with weight 12, cluster [c11] with weight
    2), have the same checksum: [UpdateGlobalFilter] from the one to the
    other answers (false, false) and keeps the old traffic split. *)
Theorem UpdateGlobalFilter_misses_weight_text (Hash : string -> Z)
  (app nsl : gmap string string) (clusters : list string)
  (pre post : list TrafficSplitElem) (e e' : TrafficSplitElem) :
  Cluster e +:+ Itoa (int32 (Weight e))
  = Cluster e' +:+ Itoa (int32 (Weight e')) ->
  let p1 := gdp_of app nsl clusters (pre ++ e :: post) in
  let p2 := gdp_of app nsl clusters (pre ++ e' :: post) in
  let live := AddToFilter Hash GetNewGlobalFilter p1 in
  UpdateGlobalFilter Hash live p1 p2 = (live, (false, false))
  /\ GlobalFilter.TrafficSplit live
     = toClusterTraffic <$> (pre ++ e :: post).
Proof.
  intros Htxt p1 p2 live. split.
  - unfold UpdateGlobalFilter.
    assert (Hck : GlobalFilter.Checksum live
                  = GlobalFilter.Checksum
                      (AddToFilter Hash GetNewGlobalFilter p2)).
    { subst live p1 p2. unfold AddToFilter, gdp_of. simpl.
      rewrite !appendTrafficSplit_app. simpl.
      rewrite !fmap_app, !fmap_cons.
      apply (fold_add32_replace
               (fun t => Hash (ClusterTraffic.ClusterName t +:+
                               Itoa (ClusterTraffic.Weight t)))).
      simpl. by rewrite Htxt. }
    by rewrite Hck, Z.eqb_refl.
  - subst live. by rewrite AddToFilter_TrafficSplit.
Qed.

Lemma UpdateGlobalFilter_misses_weight_text_witness :
  UpdateGlobalFilter fnv1a32 (AddToFilter fnv1a32 GetNewGlobalFilter gdp_c1_12)
    gdp_c1_12 gdp_c11_2
  = (AddToFilter fnv1a32 GetNewGlobalFilter gdp_c1_12, (false, false))
  /\ isTrafficWeightChanged gdp_c11_2 gdp_c1_12 = true.
Proof.
  destruct (UpdateGlobalFilter_misses_weight_text fnv1a32 ∅ ∅ ["c1"; "c11"]
              [] [] (mkTrafficSplitElem "c1" 12) (mkTrafficSplitElem "c11" 2)
              eq_refl) as [Hupd _].
  split; [exact Hupd | reflexivity].
Defined.

(** ** Reading the filter back *)

(** What [AddToFilter] wrote is what the readers give back: the label of
    the application filter and of the namespace filter when the policy has
    exactly one pair for them, with no error, and [IsClusterAllowed]
    exactly for the clusters the policy matches. *)
Theorem AddToFilter_read_back (Hash : string -> Z) (gf : GlobalFilter.t)
  (p : GlobalDeploymentPolicy) :
  (forall k v, AppSelector_Label (MatchRulesOf (Spec p)) = {[k := v]} ->
     GetAppFilterLabel (AddToFilter Hash gf p) = (Label.mk k v, None))
  /\ (forall k v, NamespaceSelector_Label (MatchRulesOf (Spec p)) = {[k := v]} ->
        GetNSFilterLabel (AddToFilter Hash gf p) = (Label.mk k v, None))
  /\ (forall cname,
        IsClusterAllowed (AddToFilter Hash gf p) cname = true
        <-> cname ∈ MatchClusters (Spec p)).
Proof.
  split; [|split].
  - intros k v Hk. unfold GetAppFilterLabel, AddToFilter. simpl.
    rewrite Hk, map_size_singleton. simpl.
    by rewrite getLabelKeyAndValue_singleton.
  - intros k v Hk. unfold GetNSFilterLabel, AddToFilter. simpl.
    rewrite Hk, map_size_singleton. simpl.
    unfold createNewNSFilter. by rewrite getLabelKeyAndValue_singleton.
  - intros cname. unfold IsClusterAllowed, AddToFilter. simpl.
    rewrite <- PresentInList_elem_of.
    by destruct (PresentInList cname (MatchClusters (Spec p))).
Qed.

Lemma AddToFilter_read_back_witness :
  GetAppFilterLabel (AddToFilter fnv1a32 gf_holding_c1 gdp_app_only)
  = (Label.mk "tier" "web", None)
  /\ GetNSFilterLabel (AddToFilter fnv1a32 gf_holding_c1 gdp_ns_only)
     = (Label.mk "tie" "rweb", None).
Proof.
  destruct (AddToFilter_read_back fnv1a32 gf_holding_c1 gdp_app_only)
    as (Happ & _).
  destruct (AddToFilter_read_back fnv1a32 gf_holding_c1 gdp_ns_only)
    as (_ & Hns & _).
  split; [apply Happ | apply Hns]; reflexivity.
Defined.

(** After [DeleteFromGlobalFilter] the filter is the new filter: it
    rejects every object, allows no cluster, has no weight and no label to
    give, and the next [AddToFilter] builds exactly the filter of its
    policy, traffic split included. *)
Theorem DeleteFromGlobalFilter_resets (Hash : string -> Z)
  (gf : GlobalFilter.t) (gdp p : GlobalDeploymentPolicy) (o : MetaObject)
  (ns cname : string) :
  let g := DeleteFromGlobalFilter gf gdp in
  K8sobjects.ApplyFilter o g = false
  /\ IsClusterAllowed g cname = false
  /\ GetTrafficWeight g ns cname
     = (0, Some ("no weight available for cluster " +:+ cname))
  /\ is_Some (snd (GetAppFilterLabel g))
  /\ is_Some (snd (GetNSFilterLabel g))
  /\ AddToFilter Hash g p = AddToFilter Hash GetNewGlobalFilter p
  /\ GlobalFilter.TrafficSplit (AddToFilter Hash g p)
     = toClusterTraffic <$> TrafficSplit (Spec p).
Proof.
  simpl. split; [by destruct o|].
  split; [done|]. split; [done|]. split; [by eexists|].
  split; [by eexists|]. split; [done|].
  exact (AddToFilter_TrafficSplit Hash GetNewGlobalFilter p).
Qed.

(** ** The pointer to the policy object *)

(** [GetGDPObj] gives back the name and the namespace [SetGDPObj] stored,
    and [IsEmpty] is true exactly when both are the empty string. *)
Theorem SetGDPObj_read_back (name ns : string) (gdpObj : GDPObj.t) :
  GetGDPObj (SetGDPObj name ns gdpObj) = (name, ns)
  /\ (IsEmpty (SetGDPObj name ns gdpObj) = true <-> name = "" /\ ns = "").
Proof.
  split; [reflexivity|]. unfold IsEmpty, SetGDPObj. simpl.
  destruct (String.eqb_spec name ""), (String.eqb_spec ns ""); simpl;
    split; try done; intros [? ?]; done.
Qed.

(** ** The hosts and the paths of an ingress *)

Lemma addTLSHosts_NoDup hosts tlsHosts :
  NoDup tlsHosts -> NoDup (addTLSHosts hosts tlsHosts).
Proof.
  revert tlsHosts. induction hosts as [|h hosts IH]; intros tlsHosts Hnd;
    simpl; [done|].
  destruct (PresentInList h tlsHosts) eqn:E; apply IH; [done|].
  apply PresentInList_false in E. apply NoDup_app. split; [done|]. split.
  - intros x Hx Hx'. apply list_elem_of_singleton in Hx'. by subst.
  - apply NoDup_singleton.
Qed.

(** [getTLSHosts] lists, without duplicates, exactly the hosts that some
    TLS block of the ingress names. *)
Theorem getTLSHosts_NoDup_and_complete (ingress : V1beta1.Ingress) :
  NoDup (getTLSHosts ingress)
  /\ forall host,
       host ∈ getTLSHosts ingress
       <-> exists tls, tls ∈ V1beta1.TLS (V1beta1.Spec ingress)
                       /\ host ∈ V1beta1.Hosts tls.
Proof.
  split; [|intros host; apply getTLSHosts_elem_of].
  unfold getTLSHosts.
  generalize (V1beta1.TLS (V1beta1.Spec ingress)). intros blocks.
  assert (H : forall acc, NoDup acc ->
    NoDup (fold_left (fun tlsHosts hosts =>
                        addTLSHosts (V1beta1.Hosts hosts) tlsHosts)
             blocks acc)).
  { induction blocks as [|b blocks IH]; intros acc Hacc; simpl; [done|].
    apply IH. by apply addTLSHosts_NoDup. }
  apply H. constructor.
Qed.

Lemma nodup_first_elem_of x l : x ∈ nodup_first l <-> x ∈ l.
Proof.
  induction l as [|y l IH]; simpl; [done|].
  rewrite !elem_of_cons, list_elem_of_filter, IH.
  destruct (decide (x = y)); tauto.
Qed.

Lemma pathKeyOf_nonempty p : pathKeyOf p <> "".
Proof.
  unfold pathKeyOf.
  destruct (String.eqb_spec (V1beta1.Path p) ""); [discriminate | done].
Qed.

Lemma getPathsForHost_elem_of host ingress x :
  x ∈ getPathsForHost host ingress -> x <> "".
Proof.
  rewrite getPathsForHost_first_rule. unfold paths_of_first_rule.
  destruct (find _ _) as [r|]; simpl.
  - destruct (nodup_first (rulePathKeys r)) as [|y l] eqn:E; simpl.
    + intros Hx. apply list_elem_of_singleton in Hx. by subst.
    + rewrite <- E, nodup_first_elem_of. unfold rulePathKeys.
      destruct (V1beta1.HTTP r) as [http|]; [|by intros ?%elem_of_nil].
      intros (p & -> & _)%list_elem_of_fmap. apply pathKeyOf_nonempty.
  - intros Hx. apply list_elem_of_singleton in Hx. by subst.
Qed.

Lemma getPathsForHost_nonempty host ingress :
  getPathsForHost host ingress <> [].
Proof.
  rewrite getPathsForHost_first_rule. unfold paths_of_first_rule, or_root.
  by destruct (nodup_first _).
Qed.

Lemma copyLabels_fold (l : list (string * string)) (acc : gmap string string) :
  NoDup (l.*1) ->
  fold_left (fun acc kv => <[fst kv := snd kv]> acc) l acc
  = list_to_map l ∪ acc.
Proof.
  revert acc. induction l as [|[k v] l IH]; intros acc Hnd; simpl.
  - by rewrite (left_id_L ∅ (∪)).
  - rewrite fmap_cons in Hnd. apply NoDup_cons in Hnd as [Hk Hnd].
    rewrite IH by done. rewrite <- insert_union_l.
    symmetry. apply insert_union_r. by apply not_elem_of_list_to_map_1.
Qed.

Lemma copyLabels_id (lbls : gmap string string) : copyLabels lbls = lbls.
Proof.
  unfold copyLabels. rewrite copyLabels_fold by apply NoDup_fst_map_to_list.
  by rewrite list_to_map_to_list, (right_id_L ∅ (∪)).
Qed.

Lemma GetIngressHostMeta_map IngressGetIPAddrs ingress cname :
  GetIngressHostMeta IngressGetIPAddrs ingress cname
  = (fun hip =>
       IngressHostMeta.mk cname (V1beta1.Name ingress)
         (V1beta1.Name ingress +:+ "/" +:+ IngressHostIP.Hostname hip)
         (V1beta1.Namespace ingress) (IngressHostIP.Hostname hip)
         (IngressHostIP.IPAddr hip) (V1beta1.Labels ingress)
         (getPathsForHost (IngressHostIP.Hostname hip) ingress)
         (PresentInList (IngressHostIP.Hostname hip) (getTLSHosts ingress)))
    <$> IngressGetIPAddrs ingress.
Proof.
  unfold GetIngressHostMeta. rewrite fold_left_snoc_map. simpl.
  apply list_fmap_ext. intros i hip _. rewrite copyLabels_id.
  by destruct (PresentInList _ _).
Qed.

(** Every metadata [GetIngressHostMeta] builds has at least one path, no
    empty path and no path twice, so that [GetPaths] on it returns its
    paths and no error. *)
Theorem GetIngressHostMeta_GetPaths_no_error
  (IngressGetIPAddrs : V1beta1.Ingress -> list IngressHostIP.t)
  (ingress : V1beta1.Ingress) (cname : string) (m : IngressHostMeta.t) :
  m ∈ GetIngressHostMeta IngressGetIPAddrs ingress cname ->
  IngressHostMeta.GetPaths m = (IngressHostMeta.Paths m, None)
  /\ IngressHostMeta.Paths m <> []
  /\ "" ∉ IngressHostMeta.Paths m.
Proof.
  rewrite GetIngressHostMeta_map. intros (hip & -> & _)%list_elem_of_fmap.
  unfold IngressHostMeta.GetPaths. simpl.
  pose proof (getPathsForHost_nonempty (IngressHostIP.Hostname hip) ingress)
    as Hne.
  split; [|split; [done|]].
  - by destruct (getPathsForHost _ _).
  - intros Hin. by apply getPathsForHost_elem_of in Hin.
Qed.

Lemma GetIngressHostMeta_GetPaths_no_error_witness :
  IngressHostMeta.GetPaths
    (IngressHostMeta.mk "c1" "web" "web/b.example" "default" "b.example"
       "10.0.0.2" {["app" := "gslb"]} ["/"] false)
  = (["/"], None).
Proof.
  apply (GetIngressHostMeta_GetPaths_no_error ips_two_hosts ing_two_hosts
           "c1").
  vm_compute. right. left.
Defined.

(** Every metadata [GetIngressHostMeta] builds carries the cluster it was
    given, the name, the namespace and the labels of the ingress, and a
    host and address that [IngressGetIPAddrs] listed; its object name is
    its ingress-host key, ingress name / hostname, and its cluster key is
    cluster / namespace / ingress name / hostname. The hosts come in the
    order of [IngressGetIPAddrs]. *)
Theorem GetIngressHostMeta_identity
  (IngressGetIPAddrs : V1beta1.Ingress -> list IngressHostIP.t)
  (ingress : V1beta1.Ingress) (cname : string) :
  IngressHostMeta.Hostname <$> GetIngressHostMeta IngressGetIPAddrs ingress cname
  = IngressHostIP.Hostname <$> IngressGetIPAddrs ingress
  /\ forall m,
       m ∈ GetIngressHostMeta IngressGetIPAddrs ingress cname ->
       IngressHostMeta.GetCluster m = cname
       /\ IngressHostMeta.IngName m = V1beta1.Name ingress
       /\ IngressHostMeta.GetNamespace m = V1beta1.Namespace ingress
       /\ IngressHostMeta.Labels m = V1beta1.Labels ingress
       /\ IngressHostMeta.GetName m = IngressHostMeta.GetIngressHostMetaKey m
       /\ IngressHostMeta.GetClusterKey m
          = cname +:+ "/" +:+ V1beta1.Namespace ingress +:+ "/" +:+
            V1beta1.Name ingress +:+ "/" +:+ IngressHostMeta.GetHostname m
       /\ IngressHostIP.mk (IngressHostMeta.GetHostname m)
            (IngressHostMeta.GetIPAddr m) ∈ IngressGetIPAddrs ingress.
Proof.
  rewrite GetIngressHostMeta_map. split.
  - rewrite <- list_fmap_compose. by apply list_fmap_ext.
  - intros m (hip & -> & Hin)%list_elem_of_fmap. simpl.
    repeat split. by destruct hip.
Qed.

Lemma GetIngressHostMeta_identity_witness :
  IngressHostMeta.GetClusterKey
    (IngressHostMeta.mk "c1" "web" "web/b.example" "default" "b.example"
       "10.0.0.2" {["app" := "gslb"]} ["/"] false)
  = "c1/default/web/b.example".
Proof.
  destruct (GetIngressHostMeta_identity ips_two_hosts ing_two_hosts "c1")
    as [_ H].
  destruct (H (IngressHostMeta.mk "c1" "web" "web/b.example" "default"
                 "b.example" "10.0.0.2" {["app" := "gslb"]} ["/"] false))
    as (_ & _ & _ & _ & _ & Hkey & _).
  - vm_compute. right. left.
  - exact Hkey.
Defined.

(** ** Looking a host up in a list of metadata *)

Lemma IngressHostInListLoop_absent ing l ihm :
  IngressHostMeta.Hostname ing ∉ IngressHostMeta.Hostname <$> l ->
  IngressHostMeta.IngressHostInListLoop ing l ihm
  = (default ihm (last l), false).
Proof.
  revert ihm. induction l as [|x l IH]; intros ihm; simpl; [done|].
  rewrite ?fmap_cons, not_elem_of_cons. intros [Hne Hl].
  destruct (String.eqb_spec (IngressHostMeta.Hostname ing)
              (IngressHostMeta.Hostname x)); [done|].
  rewrite IH by done. f_equal. rewrite last_cons. by destruct (last l).
Qed.

Lemma IngressHostInListLoop_first ing pre x post ihm :
  IngressHostMeta.Hostname x = IngressHostMeta.Hostname ing ->
  IngressHostMeta.Hostname ing ∉ IngressHostMeta.Hostname <$> pre ->
  IngressHostMeta.IngressHostInListLoop ing (pre ++ x :: post) ihm = (x, true).
Proof.
  intros Hx. revert ihm. induction pre as [|y pre IH]; intros ihm; simpl.
  - intros _. by rewrite Hx, String.eqb_refl.
  - rewrite ?fmap_cons, not_elem_of_cons. intros [Hne Hpre].
    destruct (String.eqb_spec (IngressHostMeta.Hostname ing)
                (IngressHostMeta.Hostname y)); [done|]. by apply IH.
Qed.

(** [IngressHostInList] returns the first metadata of the list with the
    hostname of the receiver, and true. When the list has none it returns
    false, with the last metadata of the list -- the loop variable is the
    one returned -- or the zero metadata when the list is empty. *)
Theorem IngressHostInList_first_or_last (ing : IngressHostMeta.t)
  (ihmList : list IngressHostMeta.t) :
  (forall pre x post,
     ihmList = pre ++ x :: post ->
     IngressHostMeta.Hostname x = IngressHostMeta.Hostname ing ->
     IngressHostMeta.Hostname ing ∉ IngressHostMeta.Hostname <$> pre ->
     IngressHostMeta.IngressHostInList ing ihmList = (x, true))
  /\ (IngressHostMeta.Hostname ing ∉ IngressHostMeta.Hostname <$> ihmList ->
      IngressHostMeta.IngressHostInList ing ihmList
      = (default IngressHostMeta.zero (last ihmList), false))
  /\ (snd (IngressHostMeta.IngressHostInList ing ihmList) = true
      <-> IngressHostMeta.Hostname ing
          ∈ IngressHostMeta.Hostname <$> ihmList).
Proof.
  unfold IngressHostMeta.IngressHostInList. split; [|split].
  - intros pre x post -> Hx Hpre. by apply IngressHostInListLoop_first.
  - apply IngressHostInListLoop_absent.
  - generalize IngressHostMeta.zero.
    induction ihmList as [|x l IH]; intros ihm; simpl.
    + rewrite elem_of_nil. split; [discriminate | done].
    + rewrite elem_of_cons.
      destruct (String.eqb_spec (IngressHostMeta.Hostname ing)
                  (IngressHostMeta.Hostname x)); simpl.
      * split; [by left | done].
      * rewrite IH. split; [by right|]. by intros [?|?].
Qed.

Lemma IngressHostInList_first_or_last_witness :
  IngressHostMeta.IngressHostInList ihm_web [ihm_web] = (ihm_web, true)
  /\ IngressHostMeta.IngressHostInList
       (IngressHostMeta.mk "c1" "web" "web/z.example" "default" "z.example"
          "10.0.0.9" ∅ ["/"] false) [ihm_web] = (ihm_web, false).
Proof.
  destruct (IngressHostInList_first_or_last ihm_web [ihm_web]) as (Hf & _).
  destruct (IngressHostInList_first_or_last
              (IngressHostMeta.mk "c1" "web" "web/z.example" "default"
                 "z.example" "10.0.0.9" ∅ ["/"] false) [ihm_web])
    as (_ & Hl & _).
  split.
  - apply (Hf [] ihm_web []); [reflexivity | reflexivity |].
    simpl. apply not_elem_of_nil.
  - apply Hl. simpl. intros Hin.
    apply list_elem_of_singleton in Hin. discriminate Hin.
Defined.

(** ** The checksum of an ingress host *)

Lemma string_leb_iff a b : String.leb a b = true <-> String.compare a b <> Gt.
Proof. unfold String.leb. destruct (String.compare a b); split; congruence. Qed.

Lemma string_compare_trans a :
  forall b c, String.compare a b <> Gt -> String.compare b c <> Gt ->
              String.compare a c <> Gt.
Proof.
  induction a as [|x a IH]; intros [|y b] [|z c]; simpl; try congruence.
  unfold Ascii.compare.
  destruct (N.compare_spec (N_of_ascii x) (N_of_ascii y)) as [Hxy|Hxy|Hxy];
    destruct (N.compare_spec (N_of_ascii y) (N_of_ascii z)) as [Hyz|Hyz|Hyz];
    try congruence; intros Hab Hbc.
  - rewrite Hxy, Hyz, N.compare_refl. by apply (IH b c).
  - rewrite Hxy. by apply N.compare_lt_iff in Hyz as ->.
  - rewrite <- Hyz. by apply N.compare_lt_iff in Hxy as ->.
  - assert (H : (N_of_ascii x < N_of_ascii z)%N) by lia.
    by apply N.compare_lt_iff in H as ->.
Qed.

#[local] Instance string_le_trans : Transitive string_le.
Proof.
  intros a b c. unfold string_le. rewrite !string_leb_iff.
  apply string_compare_trans.
Qed.

#[local] Instance string_le_total : Total string_le.
Proof. intros a b. apply String.leb_total. Qed.

#[local] Instance string_le_antisym : AntiSymm (=) string_le.
Proof. intros a b. apply String.leb_antisym. Qed.

Lemma sortStrings_Permutation l1 l2 :
  l1 ≡ₚ l2 -> sortStrings l1 = sortStrings l2.
Proof.
  intros Hp. unfold sortStrings.
  apply (Sorted_unique string_le); try apply Sorted_merge_sort; try apply _.
  by rewrite !merge_sort_Permutation.
Qed.

Lemma sortStrings_sorted l : sortStrings (sortStrings l) = sortStrings l.
Proof.
  apply (Sorted_unique string_le); try apply Sorted_merge_sort; try apply _.
  unfold sortStrings. by rewrite merge_sort_Permutation.
Qed.

(** [GetIngressHostCksum] sorts the paths before hashing them: two
    metadata that differ in the order of their paths only get the same
    checksum. The sort is done in the array of the paths itself, which is
    left sorted, with the same elements; the checksum of the metadata with
    its paths so sorted is the same. The labels are summed modulo 2^32, so
    the order in which the map of labels is iterated does not change the
    checksum. *)
Theorem GetIngressHostCksum_order_insensitive (Hash : string -> Z)
  (Stringify : list string -> string) (ing : IngressHostMeta.t) :
  let r := IngressHostMeta.GetIngressHostCksum Hash Stringify ing in
  (forall paths, paths ≡ₚ IngressHostMeta.Paths ing ->
     IngressHostMeta.GetIngressHostCksum Hash Stringify (with_paths ing paths)
     = r)
  /\ Sorted string_le (snd r)
  /\ snd r ≡ₚ IngressHostMeta.Paths ing
  /\ IngressHostMeta.GetIngressHostCksum Hash Stringify
       (with_paths ing (snd r)) = r
  /\ (forall entries,
        entries ≡ₚ map_to_list (IngressHostMeta.Labels ing) ->
        IngressHostMeta.labelsCksum Hash entries 0
        = IngressHostMeta.labelsCksum Hash
            (map_to_list (IngressHostMeta.Labels ing)) 0).
Proof.
  simpl. split; [|split; [|split; [|split]]].
  - intros paths Hp. unfold IngressHostMeta.GetIngressHostCksum. simpl.
    by rewrite (sortStrings_Permutation _ _ Hp).
  - apply Sorted_merge_sort. apply _.
  - apply merge_sort_Permutation.
  - unfold IngressHostMeta.GetIngressHostCksum. simpl.
    by rewrite sortStrings_sorted.
  - intros entries Hp. unfold IngressHostMeta.labelsCksum.
    by apply (fold_add32_Permutation
                (fun kv => add32 (Hash (fst kv)) (Hash (snd kv)))).
Qed.

Lemma GetIngressHostCksum_order_insensitive_witness :
  IngressHostMeta.GetIngressHostCksum fnv1a32 join_paths
    (with_paths ihm_web ["/b"; "/a"])
  = IngressHostMeta.GetIngressHostCksum fnv1a32 join_paths
      (with_paths ihm_web ["/a"; "/b"])
  /\ snd (IngressHostMeta.GetIngressHostCksum fnv1a32 join_paths
            (with_paths ihm_web ["/b"; "/a"])) = ["/a"; "/b"].
Proof.
  destruct (GetIngressHostCksum_order_insensitive fnv1a32 join_paths
              (with_paths ihm_web ["/a"; "/b"])) as (Hperm & _).
  split; [|vm_compute; reflexivity].
  apply (Hperm ["/b"; "/a"]). simpl. apply perm_swap.
Defined.

(** ** The metadata of a route *)

(** [GetRouteMeta] on a route whose TLS block asks for passthrough
    termination gives a passthrough metadata: the default port and
    protocol, which [GetPort] and [GetProtocol] return with no error, the
    TLS flag unset, and no path, so that [GetPaths] returns an error. On
    any other route it gives the one path of the route, or "/" when the
    route has none; [GetPaths] returns it with no error, [GetPort] and
    [GetProtocol] return an error, and the TLS flag says whether the route
    has a TLS block. *)
Theorem GetRouteMeta_kinds (RouteGetIPAddr : Routev1.Route -> string * bool)
  (PassthroughRoute : string) (DefaultHTTPSHealthMonitorPort : Z)
  (ProtocolTCP : string) (route : Routev1.Route) (cname : string) :
  let m := GetRouteMeta RouteGetIPAddr PassthroughRoute
             DefaultHTTPSHealthMonitorPort ProtocolTCP route cname in
  let passthrough :=
    exists tls, Routev1.TLS (Routev1.Spec route) = Some tls
                /\ Routev1.Termination tls = PassthroughRoute in
  (passthrough ->
   RouteMeta.IsPassthrough m = true
   /\ RouteMeta.GetPort m = (DefaultHTTPSHealthMonitorPort, None)
   /\ RouteMeta.GetProtocol m = (ProtocolTCP, None)
   /\ RouteMeta.GetTLS m = (false, None)
   /\ is_Some (snd (RouteMeta.GetPaths m)))
  /\ (~ passthrough ->
      RouteMeta.IsPassthrough m = false
      /\ RouteMeta.GetPaths m
         = ([if String.eqb (Routev1.Path (Routev1.Spec route)) ""
             then "/" else Routev1.Path (Routev1.Spec route)], None)
      /\ is_Some (snd (RouteMeta.GetPort m))
      /\ is_Some (snd (RouteMeta.GetProtocol m))
      /\ (fst (RouteMeta.GetTLS m) = true
          <-> is_Some (Routev1.TLS (Routev1.Spec route))))
  /\ RouteMeta.GetCluster m = cname
     /\ RouteMeta.GetName m = Routev1.Name route
     /\ RouteMeta.GetNamespace m = Routev1.Namespace route
     /\ RouteMeta.GetHostname m = Routev1.Host (Routev1.Spec route)
     /\ RouteMeta.GetIPAddr m = fst (RouteGetIPAddr route)
     /\ RouteMeta.Labels m = Routev1.Labels route.
Proof.
  simpl. unfold GetRouteMeta. rewrite copyLabels_id.
  destruct (RouteGetIPAddr route) as [ipAddr ok]. simpl.
  split; [|split].
  - intros (tls & -> & ->). rewrite String.eqb_refl.
    unfold RouteMeta.IsPassthrough, RouteMeta.GetPort, RouteMeta.GetProtocol,
      RouteMeta.GetTLS, RouteMeta.GetPaths. simpl.
    split; [done|]. split; [done|]. split; [done|]. split; [done|].
    by exists ("path list is empty for route " +:+ Routev1.Name route).
  - intros Hnp.
    assert (Herr1 : is_Some
      (Some "route object doesn't support GetPort function")) by by eexists.
    assert (Herr2 : is_Some
      (Some "route object doesn't support GetProtocol support"))
      by by eexists.
    destruct (Routev1.TLS (Routev1.Spec route)) as [tls|] eqn:Etls.
    + destruct (String.eqb_spec (Routev1.Termination tls) PassthroughRoute)
        as [Ht|Ht]; [destruct Hnp; by exists tls|].
      unfold RouteMeta.IsPassthrough, RouteMeta.GetPort,
        RouteMeta.GetProtocol, RouteMeta.GetTLS, RouteMeta.GetPaths. simpl.
      split; [done|].
      split; [by destruct (String.eqb (Routev1.Path (Routev1.Spec route)) "")|].
      split; [done|]. split; [done|].
      split; [intros _; by exists tls | done].
    + unfold RouteMeta.IsPassthrough, RouteMeta.GetPort,
        RouteMeta.GetProtocol, RouteMeta.GetTLS, RouteMeta.GetPaths. simpl.
      split; [done|].
      split; [by destruct (String.eqb (Routev1.Path (Routev1.Spec route)) "")|].
      split; [done|]. split; [done|].
      split; [discriminate | intros [x Hx]; discriminate Hx].
  - destruct (Routev1.TLS (Routev1.Spec route)) as [tls|]; [|done].
    by destruct (String.eqb (Routev1.Termination tls) PassthroughRoute).
Qed.

Lemma GetRouteMeta_kinds_witness :
  RouteMeta.GetPort
    (GetRouteMeta route_ip "passthrough" 443 "TCP"
       (route_of "" (Some (Routev1.mkTLSConfig "passthrough"))) "c1")
  = (443, None)
  /\ RouteMeta.GetPaths
       (GetRouteMeta route_ip "passthrough" 443 "TCP"
          (route_of "" (Some (Routev1.mkTLSConfig "edge"))) "c1")
     = (["/"], None).
Proof.
  destruct (GetRouteMeta_kinds route_ip "passthrough" 443 "TCP"
              (route_of "" (Some (Routev1.mkTLSConfig "passthrough"))) "c1")
    as (Hpass & _).
  destruct (GetRouteMeta_kinds route_ip "passthrough" 443 "TCP"
              (route_of "" (Some (Routev1.mkTLSConfig "edge"))) "c1")
    as (_ & Hplain & _).
  split.
  - apply Hpass. by exists (Routev1.mkTLSConfig "passthrough").
  - apply Hplain. intros (tls & Htls & Hterm). simpl in Htls.
    injection Htls as <-. discriminate Hterm.
Defined.

(** ** The host maps *)

(** After [UpdateHostMap key] on an object, [GetHostnameFromHostMap key]
    is the hostname of that object, whatever the map held for the key; an
    update or a deletion at one key leaves what is read at every other key
    as it was. This holds for the map of the ingress hosts and for the map
    of the routes. *)
Theorem HostMap_update_then_read (ing ing' : IngressHostMeta.t)
  (route route' : RouteMeta.t) (key : string)
  (ihMap rhMap : gmap string IPHostname.t) :
  IngressHostMeta.GetHostnameFromHostMap ing' key
    (IngressHostMeta.UpdateHostMap ing key ihMap)
  = IngressHostMeta.GetHostname ing
  /\ RouteMeta.GetHostnameFromHostMap route' key
       (RouteMeta.UpdateHostMap route key rhMap)
     = RouteMeta.GetHostname route
  /\ forall other, other <> key ->
       IngressHostMeta.GetHostnameFromHostMap ing' other
         (IngressHostMeta.UpdateHostMap ing key ihMap)
       = IngressHostMeta.GetHostnameFromHostMap ing' other ihMap
       /\ IngressHostMeta.GetHostnameFromHostMap ing' other
            (IngressHostMeta.DeleteMapByKey ing key ihMap)
          = IngressHostMeta.GetHostnameFromHostMap ing' other ihMap
       /\ RouteMeta.GetHostnameFromHostMap route' other
            (RouteMeta.UpdateHostMap route key rhMap)
          = RouteMeta.GetHostnameFromHostMap route' other rhMap
       /\ RouteMeta.GetHostnameFromHostMap route' other
            (RouteMeta.DeleteMapByKey route key rhMap)
          = RouteMeta.GetHostnameFromHostMap route' other rhMap.
Proof.
  unfold IngressHostMeta.GetHostnameFromHostMap,
    IngressHostMeta.UpdateHostMap, IngressHostMeta.DeleteMapByKey,
    RouteMeta.GetHostnameFromHostMap, RouteMeta.UpdateHostMap,
    RouteMeta.DeleteMapByKey.
  split; [by rewrite lookup_insert_eq|].
  split; [by rewrite lookup_insert_eq|].
  intros other Hne.
  by rewrite !lookup_insert_ne, !lookup_delete_ne.
Qed.

Lemma HostMap_update_then_read_witness :
  IngressHostMeta.GetHostnameFromHostMap ihm_web "k2"
    (IngressHostMeta.UpdateHostMap ihm_web "k1" newHostMap) = ""
  /\ IngressHostMeta.GetHostnameFromHostMap ihm_web "k1"
       (IngressHostMeta.UpdateHostMap ihm_web "k1" newHostMap) = "a.example".
Proof.
  destruct (HostMap_update_then_read ihm_web ihm_web route_plain route_plain
              "k1" newHostMap newHostMap) as (Hread & _ & Hother).
  split; [|exact Hread].
  destruct (Hother "k2") as (Hupd & _); [discriminate|].
  rewrite Hupd. reflexivity.
Defined.

(** ** The route store *)

(** [AddOrUpdateRouteStore] files the metadata of the route under
    (cluster, namespace of the route, name of the route), where a lookup
    finds it; [DeleteFromRouteStore] with the same cluster removes that
    entry and leaves every other entry as it was before the addition; on a
    nil store it does nothing. *)
Theorem RouteStore_add_then_delete
  (RouteGetIPAddr : Routev1.Route -> string * bool)
  (PassthroughRoute : string) (DefaultHTTPSHealthMonitorPort : Z)
  (ProtocolTCP : string) (s : ClusterStore.t RouteMeta.t)
  (route : Routev1.Route) (cname : string) :
  let added :=
    Ingestion.AddOrUpdateRouteStore RouteGetIPAddr PassthroughRoute
      DefaultHTTPSHealthMonitorPort ProtocolTCP s route cname in
  ClusterStore.GetClusterNSObjectByName added cname
    (Routev1.Namespace route) (Routev1.Name route)
  = Some (GetRouteMeta RouteGetIPAddr PassthroughRoute
            DefaultHTTPSHealthMonitorPort ProtocolTCP route cname)
  /\ Ingestion.DeleteFromRouteStore None route cname = None
  /\ exists s',
       Ingestion.DeleteFromRouteStore (Some added) route cname = Some s'
       /\ ClusterStore.GetClusterNSObjectByName s' cname
            (Routev1.Namespace route) (Routev1.Name route) = None
       /\ forall c ns name,
            (c, ns, name)
            <> (cname, Routev1.Namespace route, Routev1.Name route) ->
            ClusterStore.GetClusterNSObjectByName s' c ns name
            = ClusterStore.GetClusterNSObjectByName s c ns name.
Proof.
  simpl. split; [apply Get_AddOrUpdate_eq|]. split; [reflexivity|].
  eexists. split; [reflexivity|]. split; [apply Get_DeleteClusterNSObj_eq|].
  intros c ns name Hne. unfold Ingestion.AddOrUpdateRouteStore.
  rewrite Get_DeleteClusterNSObj_ne by congruence.
  apply Get_AddOrUpdate_ne. congruence.
Qed.

Lemma RouteStore_add_then_delete_witness :
  exists s',
    Ingestion.DeleteFromRouteStore
      (Some (Ingestion.AddOrUpdateRouteStore route_ip "passthrough" 443 "TCP"
               (ClusterStore.mk ∅) route_shop "c1"))
      route_shop "c1" = Some s'
    /\ ClusterStore.GetClusterNSObjectByName s' "c2" "default" "shop" = None.
Proof.
  destruct (RouteStore_add_then_delete route_ip "passthrough" 443 "TCP"
              (ClusterStore.mk ∅) route_shop "c1")
    as (_ & _ & s' & Hdel & _ & Hother).
  exists s'. split; [exact Hdel|].
  rewrite (Hother "c2" "default" "shop"); [reflexivity | discriminate].
Defined.

(** ** C2: the outcome of [UpdateGlobalFilter] *)

Lemma NoDup_fmap_eq {A B : Type} (f : A -> B) (l : list A) x y :
  NoDup (f <$> l) -> x ∈ l -> y ∈ l -> f x = f y -> x = y.
Proof.
  induction l as [|z l IH]; intros Hnd Hx Hy Hf; [inversion Hx|].
  rewrite fmap_cons in Hnd. apply NoDup_cons in Hnd as [Hz Hnd].
  apply elem_of_cons in Hx as [->|Hx]; apply elem_of_cons in Hy as [->|Hy].
  - reflexivity.
  - destruct Hz. rewrite Hf. by apply list_elem_of_fmap_2.
  - destruct Hz. rewrite <- Hf. by apply list_elem_of_fmap_2.
  - by apply IH.
Qed.

(** With each cluster listed once in the old traffic split, the weights
    count as unchanged exactly when the new traffic split is the old one
    up to the order of its entries. *)
Lemma isTrafficWeightChanged_false_Permutation new old :
  NoDup (Cluster <$> TrafficSplit (Spec old)) ->
  isTrafficWeightChanged new old = false
  <-> TrafficSplit (Spec new) ≡ₚ TrafficSplit (Spec old).
Proof.
  intros Hnd. rewrite isTrafficWeightChanged_false, Forall_forall. split.
  - intros [Hlen Hkept]. symmetry.
    apply submseteq_length_Permutation; [|by rewrite Hlen].
    apply NoDup_submseteq; [by apply NoDup_fmap_1 in Hnd|].
    intros om Hom. destruct (Hkept om Hom) as [Hin Hw].
    apply list_elem_of_fmap in Hin as (nm & Hc & Hnm).
    assert (Heq : nm = om).
    { specialize (Hw nm Hnm (eq_sym Hc)).
      destruct nm, om; simpl in *; congruence. }
    by subst.
  - intros Hperm. split; [by rewrite Hperm|].
    intros om Hom. split.
    + rewrite Hperm. by apply list_elem_of_fmap_2.
    + intros nm Hnm Hc. rewrite Hperm in Hnm.
      by rewrite (NoDup_fmap_eq Cluster _ nm om Hnd Hnm Hom Hc).
Qed.

Lemma UpdateGlobalFilter_checksum Hash gf old new :
  GlobalFilter.Checksum (fst (UpdateGlobalFilter Hash gf old new))
  = GlobalFilter.Checksum (AddToFilter Hash GetNewGlobalFilter new).
Proof.
  unfold UpdateGlobalFilter.
  by destruct (Z.eqb_spec (GlobalFilter.Checksum gf)
                 (GlobalFilter.Checksum
                    (AddToFilter Hash GetNewGlobalFilter new))).
Qed.

(** C2, as the code has it. [UpdateGlobalFilter old new] builds the
    candidate [nf] from [new] on a new filter and compares its checksum
    with the live filter's. When they are equal it returns (false, false)
    and the live filter is as before. When they differ the live filter
    takes the five fields of the candidate and the result is (true, t),
    where t is false exactly when the two traffic splits have the same
    length and every member of the old one has its cluster in the new one,
    with its weight wherever the new one lists that cluster; with each
    cluster listed once in the old traffic split, t is false exactly when
    the new traffic split is the old one up to order. For two documents
    that normalize to the same selectors, clusters and weights, whatever
    the order of their lists, the result is (false, false) when the live
    filter holds the checksum of [old] -- as it does when it was built from
    [old] on a new filter, or brought to [old] by an earlier
    [UpdateGlobalFilter]. *)
Theorem UpdateGlobalFilter_outcome (Hash : string -> Z) (gf : GlobalFilter.t)
  (old new : GlobalDeploymentPolicy) :
  let nf := AddToFilter Hash GetNewGlobalFilter new in
  (GlobalFilter.Checksum gf = GlobalFilter.Checksum nf ->
   UpdateGlobalFilter Hash gf old new = (gf, (false, false)))
  /\ (GlobalFilter.Checksum gf <> GlobalFilter.Checksum nf ->
      exists gf' t,
        UpdateGlobalFilter Hash gf old new = (gf', (true, t))
        /\ GlobalFilter.AppFilter gf' = GlobalFilter.AppFilter nf
        /\ GlobalFilter.NSFilter gf' = GlobalFilter.NSFilter nf
        /\ GlobalFilter.TrafficSplit gf' = GlobalFilter.TrafficSplit nf
        /\ GlobalFilter.ApplicableClusters gf'
           = GlobalFilter.ApplicableClusters nf
        /\ GlobalFilter.Checksum gf' = GlobalFilter.Checksum nf
        /\ (t = false
            <-> length (TrafficSplit (Spec old))
                = length (TrafficSplit (Spec new))
                /\ forall om, om ∈ TrafficSplit (Spec old) ->
                     Cluster om ∈ Cluster <$> TrafficSplit (Spec new)
                     /\ forall nm, nm ∈ TrafficSplit (Spec new) ->
                          Cluster nm = Cluster om -> Weight nm = Weight om)
        /\ (NoDup (Cluster <$> TrafficSplit (Spec old)) ->
            (t = false
             <-> TrafficSplit (Spec new) ≡ₚ TrafficSplit (Spec old))))
  /\ (same_policy old new ->
      (GlobalFilter.Checksum gf
       = GlobalFilter.Checksum (AddToFilter Hash GetNewGlobalFilter old) ->
       UpdateGlobalFilter Hash gf old new = (gf, (false, false)))
      /\ UpdateGlobalFilter Hash (AddToFilter Hash GetNewGlobalFilter old)
           old new
         = (AddToFilter Hash GetNewGlobalFilter old, (false, false))
      /\ forall gf0 old0,
           UpdateGlobalFilter Hash
             (fst (UpdateGlobalFilter Hash gf0 old0 old)) old new
           = (fst (UpdateGlobalFilter Hash gf0 old0 old), (false, false))).
Proof.
  intros nf.
  assert (Heq : forall g,
            GlobalFilter.Checksum g = GlobalFilter.Checksum nf ->
            UpdateGlobalFilter Hash g old new = (g, (false, false))).
  { intros g Hc. unfold UpdateGlobalFilter. fold nf.
    by rewrite Hc, Z.eqb_refl. }
  split; [apply Heq|]. split.
  - intros Hne. unfold UpdateGlobalFilter. fold nf.
    apply Z.eqb_neq in Hne as ->.
    eexists _, (isTrafficWeightChanged new old).
    split; [reflexivity|]. simpl. do 5 (split; [reflexivity|]). split.
    + rewrite isTrafficWeightChanged_false, Forall_forall. reflexivity.
    + apply isTrafficWeightChanged_false_Permutation.
  - intros Hsame.
    pose proof (AddToFilter_new_same_policy Hash old new Hsame) as Hck.
    split; [|split].
    + intros Hc. apply Heq. by rewrite Hc.
    + by apply Heq.
    + intros gf0 old0. apply Heq.
      by rewrite UpdateGlobalFilter_checksum.
Qed.

Lemma UpdateGlobalFilter_outcome_witness :
  UpdateGlobalFilter fnv1a32
    (AddToFilter fnv1a32 GetNewGlobalFilter gdp_c1_c2) gdp_c1_c2 gdp_c2_c1
  = (AddToFilter fnv1a32 GetNewGlobalFilter gdp_c1_c2, (false, false))
  /\ snd (UpdateGlobalFilter fnv1a32 GetNewGlobalFilter gdp_c1_c2 gdp_c1_only)
     = (true, true).
Proof.
  destruct (UpdateGlobalFilter_outcome fnv1a32
              (AddToFilter fnv1a32 GetNewGlobalFilter gdp_c1_c2)
              gdp_c1_c2 gdp_c2_c1) as (_ & _ & Hsame).
  destruct (UpdateGlobalFilter_outcome fnv1a32 GetNewGlobalFilter
              gdp_c1_c2 gdp_c1_only) as (_ & Hne & _).
  split.
  - destruct Hsame as (_ & Hbuilt & _); [|exact Hbuilt].
    split; [reflexivity|]. split; [reflexivity|].
    split; simpl; apply perm_swap.
  - destruct Hne as (gf' & t & Hupd & _ & _ & _ & _ & _ & _ & Hperm).
    + vm_compute. discriminate.
    + rewrite Hupd. simpl. f_equal.
      destruct t; [reflexivity|].
      assert (Hnd : NoDup (Cluster <$> TrafficSplit (Spec gdp_c1_c2))).
      { simpl. apply NoDup_cons. split.
        - intros Hin. apply list_elem_of_singleton in Hin. discriminate Hin.
        - apply NoDup_singleton. }
      destruct (Hperm Hnd) as [Hp _].
      apply Permutation_length in Hp; [discriminate Hp | reflexivity].
Defined.

(** C2 as first stated fails. On the new filter, two documents that
    normalize to the same selectors, clusters and weights get (true,
    false), not (false, false): the live checksum is not that of the old
    document. And on two identical documents that list a cluster with two
    weights the second result is true, although no weight changed. *)
Lemma UpdateGlobalFilter_every_live_state_counterexample :
  same_policy gdp_c1_c2 gdp_c2_c1
  /\ snd (UpdateGlobalFilter fnv1a32 GetNewGlobalFilter gdp_c1_c2 gdp_c2_c1)
     = (true, false)
  /\ snd (UpdateGlobalFilter fnv1a32 GetNewGlobalFilter gdp_dup_12 gdp_dup_12)
     = (true, true).
Proof.
  split; [|split; vm_compute; reflexivity].
  split; [reflexivity|]. split; [reflexivity|].
  split; simpl; apply perm_swap.
Qed.
